(** * Media generation service: the job orchestration task and the retention sweep

    A shallow embedding of
      - [app/models/job.py]                (the Job row, its status, the schemas of the API),
      - [app/services/storage.py]          (LocalFileStorage),
      - [app/services/replicate_client.py] (RealReplicateClient, ReplicateService),
      - [app/tasks/media_tasks.py]         (process_media_generation, cleanup_old_files),
      - [app/api/media.py]                 (the endpoints),
    followed by the properties of the orchestration engine, and then by those
    of the job table, the storage service, the endpoints and the client.

    The Python code is stateful and raises exceptions, so it is embedded in a
    small state-and-exception monad over a [World]: the job table, the files on
    disk, the clock, and the log of calls made to the collaborators.  The
    external service (the Replicate HTTP API) is an oracle [Env]: what a call
    answers is a function of how many calls of that kind came before it and of
    its arguments.

    The methods of the storage service are [async def], and the tasks are plain
    functions.  Where a task drives the coroutine on an event loop
    ([save_metadata]) the body of the method runs; where it does not
    ([save_file], [delete_file]) the call yields a coroutine object and the
    body never runs.  The embedding keeps that difference. *)

From stdpp Require Import base strings gmap list pretty sorting.
From Stdlib Require Import ZArith QArith Ascii Lia.

#[local] Set Warnings "-register-all".
#[local] Open Scope string_scope.
#[local] Open Scope Z_scope.

(** ** Python values and exceptions *)

(** The values that [json.loads] can produce and that travel in keyword
    arguments and in request payloads. *)
Inductive pyval : Type :=
| PyNone
| PyBool (b : bool)
| PyInt (z : Z)
| PyFloat (q : Q)
| PyStr (s : string)
| PyList (l : list pyval)
| PyDict (d : list (string * pyval)).

Definition is_none (v : pyval) : bool :=
  match v with PyNone => true | _ => false end.

(** A [dict] with string keys, as an association list; the first binding of a
    key is the one that counts. *)
Definition pydict : Type := list (string * pyval).

Fixpoint dict_lookup (k : string) (d : pydict) : option pyval :=
  match d with
  | [] => None
  | (k', v) :: d' => if String.eqb k' k then Some v else dict_lookup k d'
  end.

(** [d.get(k, default)] *)
Definition dict_get (d : pydict) (k : string) (default : pyval) : pyval :=
  match dict_lookup k d with Some v => v | None => default end.

Definition dict_has (d : pydict) (k : string) : bool :=
  match dict_lookup k d with Some _ => true | None => false end.

(** [{**base, **extra}]: a key of [base] keeps its place and takes the value
    that [extra] gives it, if any; the other keys of [extra] follow. *)
Definition dict_merge (base extra : pydict) : pydict :=
  (List.map (fun kv => (kv.1, dict_get extra kv.1 kv.2)) base
   ++ List.filter (fun kv => negb (dict_has base kv.1)) extra)%list.

Inductive exn_class : Type :=
| ReplicateAPIError
| StorageError
| ValueError
| TypeError
| KeyError
| OtherException.

(** An exception: its class and [str(e)]. *)
Record exn : Type := Exn { exn_class_of : exn_class; exn_msg : string }.

Definition is_ReplicateAPIError (e : exn) : bool :=
  match exn_class_of e with ReplicateAPIError => true | _ => false end.

Definition is_StorageError (e : exn) : bool :=
  match exn_class_of e with StorageError => true | _ => false end.

(** Truthiness of an [Optional[str]]: [None] and the empty string are falsy. *)
Definition truthy (o : option string) : bool :=
  match o with
  | None => false
  | Some s => negb (String.eqb s "")
  end.

(** How an f-string renders an [Optional[str]]. *)
Definition fmt (o : option string) : string :=
  match o with Some s => s | None => "None" end.

(** ** app/models/job.py *)

Inductive JobStatus : Type :=
| PENDING
| PROCESSING
| COMPLETED
| FAILED
| CANCELLED.

#[global] Instance JobStatus_eq_dec : EqDecision JobStatus.
Proof. solve_decision. Defined.

(** The [Job] table row.  A UUID is kept as its text; timestamps are seconds. *)
Record Job : Type := mkJob {
  id : string;
  prompt : string;
  model_name : string;
  parameters : option string;
  status : JobStatus;
  created_at : Z;
  updated_at : option Z;
  started_at : option Z;
  completed_at : option Z;
  retry_count : Z;
  error_message : option string;
  result_url : option string;
  file_path : option string;
  file_size : option Z;
  external_job_id : option string
}.

(** One keyword argument of [update_job(session, job_id, **updates)]. *)
Inductive field_update : Type :=
| Set_status (v : JobStatus)
| Set_started_at (v : Z)
| Set_completed_at (v : Z)
| Set_retry_count (v : Z)
| Set_error_message (v : string)
| Set_result_url (v : option string)
| Set_file_path (v : option string)
| Set_file_size (v : Z)
| Set_external_job_id (v : string).

(** [setattr(job, field, value)] *)
Definition setattr (j : Job) (u : field_update) : Job :=
  match u with
  | Set_status v =>
      mkJob (id j) (prompt j) (model_name j) (parameters j) v (created_at j)
        (updated_at j) (started_at j) (completed_at j) (retry_count j)
        (error_message j) (result_url j) (file_path j) (file_size j)
        (external_job_id j)
  | Set_started_at v =>
      mkJob (id j) (prompt j) (model_name j) (parameters j) (status j)
        (created_at j) (updated_at j) (Some v) (completed_at j) (retry_count j)
        (error_message j) (result_url j) (file_path j) (file_size j)
        (external_job_id j)
  | Set_completed_at v =>
      mkJob (id j) (prompt j) (model_name j) (parameters j) (status j)
        (created_at j) (updated_at j) (started_at j) (Some v) (retry_count j)
        (error_message j) (result_url j) (file_path j) (file_size j)
        (external_job_id j)
  | Set_retry_count v =>
      mkJob (id j) (prompt j) (model_name j) (parameters j) (status j)
        (created_at j) (updated_at j) (started_at j) (completed_at j) v
        (error_message j) (result_url j) (file_path j) (file_size j)
        (external_job_id j)
  | Set_error_message v =>
      mkJob (id j) (prompt j) (model_name j) (parameters j) (status j)
        (created_at j) (updated_at j) (started_at j) (completed_at j)
        (retry_count j) (Some v) (result_url j) (file_path j) (file_size j)
        (external_job_id j)
  | Set_result_url v =>
      mkJob (id j) (prompt j) (model_name j) (parameters j) (status j)
        (created_at j) (updated_at j) (started_at j) (completed_at j)
        (retry_count j) (error_message j) v (file_path j) (file_size j)
        (external_job_id j)
  | Set_file_path v =>
      mkJob (id j) (prompt j) (model_name j) (parameters j) (status j)
        (created_at j) (updated_at j) (started_at j) (completed_at j)
        (retry_count j) (error_message j) (result_url j) v (file_size j)
        (external_job_id j)
  | Set_file_size v =>
      mkJob (id j) (prompt j) (model_name j) (parameters j) (status j)
        (created_at j) (updated_at j) (started_at j) (completed_at j)
        (retry_count j) (error_message j) (result_url j) (file_path j) (Some v)
        (external_job_id j)
  | Set_external_job_id v =>
      mkJob (id j) (prompt j) (model_name j) (parameters j) (status j)
        (created_at j) (updated_at j) (started_at j) (completed_at j)
        (retry_count j) (error_message j) (result_url j) (file_path j)
        (file_size j) (Some v)
  end.

Definition set_updated_at (t : Z) (j : Job) : Job :=
  mkJob (id j) (prompt j) (model_name j) (parameters j) (status j)
    (created_at j) (Some t) (started_at j) (completed_at j) (retry_count j)
    (error_message j) (result_url j) (file_path j) (file_size j)
    (external_job_id j).

(** The statuses with no outgoing edge in the job life cycle. *)
Definition terminal (s : JobStatus) : bool :=
  match s with
  | COMPLETED | FAILED | CANCELLED => true
  | PENDING | PROCESSING => false
  end.

(** ** The world the tasks run in *)

(** A call made to a collaborator, as the call site passes its arguments. *)
Inductive event : Type :=
| Ev_create_prediction (model : string) (input_data : pydict)
| Ev_get_prediction (prediction_id : option string)
| Ev_download_result (image_url : string) (prompt : string)
| Ev_save_metadata (job_id : string) (metadata : pydict)
| Ev_save_file (job_id : string) (file_data : list Byte.byte) (extension : string)
| Ev_delete_file (job_id : string).

Record World : Type := mkWorld {
  jobs : list Job;          (* the rows of the job table, in table order *)
  files : gset string;      (* the paths that exist on disk *)
  writable : bool;          (* whether the disk accepts writes and removals *)
  now : Z;                  (* what datetime.utcnow() reads *)
  calls : list event        (* collaborator calls, the latest first *)
}.

Definition with_jobs (js : list Job) (w : World) : World :=
  mkWorld js (files w) (writable w) (now w) (calls w).

Definition with_files (fs : gset string) (w : World) : World :=
  mkWorld (jobs w) fs (writable w) (now w) (calls w).

Definition with_now (t : Z) (w : World) : World :=
  mkWorld (jobs w) (files w) (writable w) t (calls w).

Definition log (ev : event) (w : World) : World :=
  mkWorld (jobs w) (files w) (writable w) (now w) (ev :: calls w).

(** The monad of the tasks: a computation reads and changes the world and
    either returns or raises.  What was committed before a [raise] stays. *)
Definition M (A : Type) : Type := World -> (exn + A) * World.

Definition ret {A} (a : A) : M A := fun w => (inr a, w).

Definition raise {A} (e : exn) : M A := fun w => (inl e, w).

Definition bind {A B} (m : M A) (k : A -> M B) : M B :=
  fun w =>
    match m w with
    | (inl e, w') => (inl e, w')
    | (inr a, w') => k a w'
    end.

(** [try: m  except <class selected by handles>: h e] *)
Definition try_except {A} (m : M A) (handles : exn -> bool) (h : exn -> M A) : M A :=
  fun w =>
    match m w with
    | (inl e, w') => if handles e then h e w' else (inl e, w')
    | (inr a, w') => (inr a, w')
    end.

Definition get_world : M World := fun w => (inr w, w).

Definition modify (f : World -> World) : M unit := fun w => (inr tt, f w).

Declare Scope task_scope.
Delimit Scope task_scope with task.
Notation "x <- m ;; k" := (bind m (fun x => k))
  (at level 100, m at next level, right associativity) : task_scope.
Notation "m ;;; k" := (bind m (fun _ => k))
  (at level 100, right associativity) : task_scope.
#[local] Open Scope task_scope.

(** [datetime.utcnow()] *)
Definition utcnow : M Z := fun w => (inr (now w), w).

(** [time.sleep(seconds)] *)
Definition sleep (seconds : Z) : M unit :=
  modify (fun w => with_now (now w + seconds) w).

(** ** The job table: [get_job_by_id] and [update_job] *)

(** [session.query(Job).filter(Job.id == job_id).first()] *)
Fixpoint find_job (rows : list Job) (job_id : string) : option Job :=
  match rows with
  | [] => None
  | j :: rows' => if String.eqb (id j) job_id then Some j else find_job rows' job_id
  end.

(** The row that [.first()] returned is the one that is written back. *)
Fixpoint store_job (rows : list Job) (job_id : string) (j' : Job) : list Job :=
  match rows with
  | [] => []
  | j :: rows' =>
      if String.eqb (id j) job_id then j' :: rows'
      else j :: store_job rows' job_id j'
  end.

Definition not_found (job_id : string) : exn :=
  Exn ValueError ("Job " ++ job_id ++ " not found").

Definition get_job_by_id (job_id : string) : M Job :=
  fun w =>
    match find_job (jobs w) job_id with
    | None => (inl (not_found job_id), w)
    | Some job => (inr job, w)
    end.

(** [update_job]: apply the keyword arguments in order, stamp [updated_at],
    commit.  It returns the row object, which is the one object the session
    holds for that row. *)
Definition update_job (job_id : string) (updates : list field_update) : M Job :=
  fun w =>
    match find_job (jobs w) job_id with
    | None => (inl (not_found job_id), w)
    | Some job =>
        let job' := set_updated_at (now w) (fold_left setattr updates job) in
        (inr job', with_jobs (store_job (jobs w) job_id job') w)
    end.

(** ** Coroutines *)

(** Calling an [async def] method does not run its body: the call returns a
    coroutine object, and the body runs only when an event loop drives it. *)
Record coroutine (A : Type) : Type := Coroutine { co_body : M A }.
Arguments Coroutine {A} _.
Arguments co_body {A} _.

(** [loop.run_until_complete(c)] *)
Definition run_until_complete {A} (c : coroutine A) : M A := co_body c.

(** [if c:] on a coroutine object: it defines neither [__bool__] nor
    [__len__], so it is true. *)
Definition coroutine_truth {A} (c : coroutine A) : bool := true.

(** [a, b = c] on a coroutine object: it is not iterable. *)
Definition unpack_pair {A} (c : coroutine A) : M (string * string) :=
  raise (Exn TypeError "cannot unpack non-iterable coroutine object").

(** ** app/services/storage.py: LocalFileStorage *)

(** [Path(settings.storage_path)] with the default of [app/core/config.py],
    its sibling [metadata] directory, and [settings.storage_base_url]. *)
Definition base_path : string := "storage/media".
Definition metadata_path : string := "storage/metadata".
Definition base_url : string := "http://localhost:8000/media".

Definition _generate_file_path (job_id extension : string) : string :=
  base_path ++ "/" ++ job_id ++ "." ++ extension.

Definition _generate_metadata_path (job_id : string) : string :=
  metadata_path ++ "/" ++ job_id ++ ".json".

Definition _generate_file_url (job_id extension : string) : string :=
  base_url ++ "/" ++ job_id ++ "." ++ extension.

(** What the operating system raises when the disk refuses a change. *)
Definition os_error : exn := Exn OtherException "[Errno 30] Read-only file system".

(** [open(path, mode)] and [write]: the file exists afterwards.  The refusal
    is that of [open]; a write that fails once the file is open, and leaves
    it created or cut short, is not part of this model. *)
Definition write_file (path : string) : M unit :=
  fun w =>
    if writable w then (inr tt, with_files ({[ path ]} ∪ files w) w)
    else (inl os_error, w).

(** [os.remove(path)] *)
Definition os_remove (path : string) : M unit :=
  fun w =>
    if writable w then (inr tt, with_files (files w ∖ {[ path ]}) w)
    else (inl os_error, w).

(** [path.exists()] *)
Definition path_exists (path : string) : M bool :=
  fun w => (inr (bool_decide (path ∈ files w)), w).

(** The [except Exception as e: raise StorageError(f"... {job_id}: {e}")] that
    closes every method. *)
Definition as_StorageError {A} (what job_id : string) (m : M A) : M A :=
  try_except m (fun _ => true)
    (fun e => raise (Exn StorageError (what ++ job_id ++ ": " ++ exn_msg e))).

Definition save_file_body (job_id : string) (file_data : list Byte.byte)
    (extension : string) : M (string * string) :=
  as_StorageError "Failed to save file for job " job_id
    (let file_path := _generate_file_path job_id extension in
     let file_url := _generate_file_url job_id extension in
     write_file file_path ;;;
     ret (file_path, file_url)).

Definition save_metadata_body (job_id : string) (metadata : pydict) : M string :=
  as_StorageError "Failed to save metadata for job " job_id
    (let metadata_path := _generate_metadata_path job_id in
     write_file metadata_path ;;;
     ret metadata_path).

Definition delete_file_body (job_id extension : string) : M bool :=
  as_StorageError "Failed to delete file for job " job_id
    (let file_path := _generate_file_path job_id extension in
     present <- path_exists file_path ;;
     if present then os_remove file_path ;;; ret true
     else ret false).

(** The three methods are [async def]: a call logs itself and hands back the
    coroutine of the body. *)
Definition save_file (job_id : string) (file_data : list Byte.byte)
    (extension : string) : M (coroutine (string * string)) :=
  modify (log (Ev_save_file job_id file_data extension)) ;;;
  ret (Coroutine (save_file_body job_id file_data extension)).

Definition save_metadata (job_id : string) (metadata : pydict) : M (coroutine string) :=
  modify (log (Ev_save_metadata job_id metadata)) ;;;
  ret (Coroutine (save_metadata_body job_id metadata)).

Definition delete_file (job_id : string) : M (coroutine bool) :=
  modify (log (Ev_delete_file job_id)) ;;;
  ret (Coroutine (delete_file_body job_id "png")).

(** ** The surroundings of the tasks *)

(** A prediction as the Replicate API reports it.  [pred_status = None] stands
    for a response without a [status] key; [pred_output = None] for an absent or
    null [output]. *)
Inductive entry (A : Type) : Type :=
| Absent
| Null
| Value (a : A).
Arguments Absent {A}.
Arguments Null {A}.
Arguments Value {A} _.

Record prediction : Type := mkPrediction {
  pred_status : option string;
  pred_output : option (list string);
  pred_error : entry string
}.

(** What the code takes from outside: two library functions and the remote
    service.  [json_loads s = None] is [json.JSONDecodeError].  The remote
    calls answer by their rank among the calls of the same kind (counted from
    0) and their arguments, with a value or with the exception raised:
    [create_prediction] answers the [id] of the response.  The exception need
    not be a [ReplicateAPIError]: the mock client, whose methods are
    [async def], makes [generate_image] raise a [TypeError] when it subscripts
    the coroutine it got. *)
Record Env : Type := mkEnv {
  json_loads : string -> option pyval;
  isoformat : Z -> string;
  create_prediction : nat -> string -> pydict -> exn + string;
  get_prediction : nat -> option string -> exn + prediction;
  http_download : nat -> string -> exn + list Byte.byte
}.

Definition is_create_prediction (ev : event) : bool :=
  match ev with Ev_create_prediction _ _ => true | _ => false end.

Definition is_get_prediction (ev : event) : bool :=
  match ev with Ev_get_prediction _ => true | _ => false end.

Definition is_download_result (ev : event) : bool :=
  match ev with Ev_download_result _ _ => true | _ => false end.

Definition count_calls (kind : event -> bool) (evs : list event) : nat :=
  length (List.filter kind evs).

(** The result dictionary of the task. *)
Inductive task_result : Type :=
| Result_completed (result_url : string) (file_size : Z)
| Result_failed (error : option string).

(** How one pass through the body of the polling loop ends. *)
Inductive loop_step : Type :=
| Return (r : task_result)
| Next.

Inductive http_error : Type :=
| HTTPException (status_code : Z) (detail : string).

(** The value of a status, as [JobStatus(str, Enum)] stores it.  The detail of
    an HTTP error shows a status through an f-string, which interpreters have
    formatted in more than one way for such an enumeration; the value is taken
    here. *)
Definition status_value (s : JobStatus) : string :=
  match s with
  | PENDING => "pending"
  | PROCESSING => "processing"
  | COMPLETED => "completed"
  | FAILED => "failed"
  | CANCELLED => "cancelled"
  end.

Section Tasks.

Variable env : Env.

(** ** app/services/replicate_client.py: ReplicateService *)

(** [self.client.create_prediction(model, input_data)] and [response["id"]] *)
Definition client_create_prediction (model : string) (input_data : pydict) : M string :=
  fun w =>
    let n := count_calls is_create_prediction (calls w) in
    (create_prediction env n model input_data,
     log (Ev_create_prediction model input_data) w).

(** Lines 142-154 of [generate_image]: the payload, without the entries that
    are [None]. *)
Definition build_input (prompt : string) (kwargs : pydict) : pydict :=
  let input_data :=
    [ ("prompt", PyStr prompt);
      ("width", dict_get kwargs "width" (PyInt 1024));
      ("height", dict_get kwargs "height" (PyInt 1024));
      ("num_outputs", PyInt 1);
      ("num_inference_steps", dict_get kwargs "num_inference_steps" (PyInt 4));
      ("guidance_scale", dict_get kwargs "guidance_scale" (PyFloat (7 # 2)));
      ("seed", dict_get kwargs "seed" PyNone) ] in
  List.filter (fun kv => negb (is_none kv.2)) input_data.

(** [generate_image(self, prompt, model, **kwargs)] *)
Definition generate_image (prompt model : string) (kwargs : pydict) : M string :=
  client_create_prediction model (build_input prompt kwargs).

(** [check_job_status(self, job_id)] *)
Definition check_job_status (job_id : option string) : M prediction :=
  fun w =>
    let n := count_calls is_get_prediction (calls w) in
    (get_prediction env n job_id, log (Ev_get_prediction job_id) w).

(** [download_result(self, image_url, prompt)] *)
Definition download_result (image_url prompt : string) : M (list Byte.byte) :=
  fun w =>
    let n := count_calls is_download_result (calls w) in
    (http_download env n image_url, log (Ev_download_result image_url prompt) w).

(** ** app/tasks/media_tasks.py: process_media_generation *)

(** Lines 90-95: the generation parameters. *)
Definition parse_parameters (job : Job) : pyval :=
  match parameters job with
  | Some text =>
      if String.eqb text "" then PyDict []
      else match json_loads env text with
           | Some v => v
           | None => PyDict []
           end
  | None => PyDict []
  end.

(** [replicate_service.generate_image(prompt=..., model=..., **params)]: the
    [**] needs a mapping, and a key may not repeat a named argument. *)
Definition call_generate_image (prompt model : string) (params : pyval) : M string :=
  match params with
  | PyDict kwargs =>
      if dict_has kwargs "self" || dict_has kwargs "prompt" || dict_has kwargs "model"
      then raise (Exn TypeError "generate_image() got multiple values for keyword argument")
      else generate_image prompt model kwargs
  | _ => raise (Exn TypeError "generate_image() argument after ** must be a mapping")
  end.

(** [**params] inside a dict display, once the call above has accepted
    [params] as a mapping. *)
Definition as_mapping (params : pyval) : pydict :=
  match params with PyDict d => d | _ => [] end.

(** Lines 107-113: the metadata of the generation. *)
Definition build_metadata (job : Job) (external_job_id : string) (params : pyval) : pydict :=
  dict_merge
    [ ("prompt", PyStr (prompt job));
      ("model_name", PyStr (model_name job));
      ("external_job_id", PyStr external_job_id);
      ("created_at", PyStr (isoformat env (created_at job))) ]
    (as_mapping params).

(** Lines 87-134: start the generation.  It returns the row object with the
    external id that line 104 puts on it. *)
Definition start_generation (job_uuid : string) (job : Job) : M Job :=
  try_except
    (let params := parse_parameters job in
     external_job_id <- call_generate_image (prompt job) (model_name job) params ;;
     update_job job_uuid [Set_external_job_id external_job_id] ;;;
     let job := setattr job (Set_external_job_id external_job_id) in
     let metadata := build_metadata job external_job_id params in
     c <- save_metadata job_uuid metadata ;;
     run_until_complete c ;;;
     ret job)
    is_ReplicateAPIError
    (fun e =>
       t <- utcnow ;;
       update_job job_uuid
         [ Set_status FAILED;
           Set_error_message ("Failed to start generation: " ++ exn_msg e);
           Set_completed_at t ] ;;;
       raise e).

(** [result["status"]] *)
Definition subscript_status (result : prediction) : M string :=
  match pred_status result with
  | Some s => ret s
  | None => raise (Exn KeyError "'status'")
  end.

(** [result.get("error", "Unknown error from Replicate")] *)
Definition get_error (result : prediction) : option string :=
  match pred_error result with
  | Absent => Some "Unknown error from Replicate"
  | Null => None
  | Value s => Some s
  end.

(** Lines 139-203: the body of the polling loop.  [save_file] is an
    [async def] that line 153 calls without awaiting it, so what is unpacked
    into [file_path, file_url] is a coroutine object.  The [if] of line 146 has
    no [else]: a success without output ends the pass and the loop goes on. *)
Definition poll_once (job_uuid : string) (job : Job) : M loop_step :=
  try_except
    (result <- check_job_status (external_job_id job) ;;
     st <- subscript_status result ;;
     if String.eqb st "succeeded" then
       match pred_output result with
       | Some (image_url :: _) =>
           image_data <- download_result image_url (prompt job) ;;
           c <- save_file job_uuid image_data "png" ;;
           pair <- unpack_pair c ;;
           let file_path := pair.1 in
           let file_url := pair.2 in
           t <- utcnow ;;
           update_job job_uuid
             [ Set_status COMPLETED;
               Set_result_url (Some file_url);
               Set_file_path (Some file_path);
               Set_file_size (Z.of_nat (length image_data));
               Set_completed_at t ] ;;;
           ret (Return (Result_completed file_url (Z.of_nat (length image_data))))
       | _ => ret Next
       end
     else if String.eqb st "failed" then
       let error_msg := get_error result in
       t <- utcnow ;;
       update_job job_uuid
         [ Set_status FAILED;
           Set_error_message ("Generation failed: " ++ fmt error_msg);
           Set_completed_at t ] ;;;
       ret (Return (Result_failed error_msg))
     else
       sleep 10 ;;;
       ret Next)
    is_ReplicateAPIError
    (fun e =>
       t <- utcnow ;;
       update_job job_uuid
         [ Set_status FAILED;
           Set_error_message ("API error: " ++ exn_msg e);
           Set_completed_at t ] ;;;
       raise e).

(** [for attempt in range(attempts):] around [poll_once]; [None] when the loop
    runs to its end. *)
Fixpoint poll_loop (attempts : nat) (job_uuid : string) (job : Job) : M (option task_result) :=
  match attempts with
  | O => ret None
  | S attempts' =>
      step <- poll_once job_uuid job ;;
      match step with
      | Return r => ret (Some r)
      | Next => poll_loop attempts' job_uuid job
      end
  end.

(** Line 137. *)
Definition max_attempts : nat := 30.

(** Lines 86-213: start the generation unless the row has an external id,
    poll, and give up when the loop runs to its end. *)
Definition generate_and_poll (job_uuid : string) (job : Job) : M task_result :=
  job <- (if negb (truthy (external_job_id job))
          then start_generation job_uuid job
          else ret job) ;;
  finished <- poll_loop max_attempts job_uuid job ;;
  match finished with
  | Some r => ret r
  | None =>
      t <- utcnow ;;
      update_job job_uuid
        [ Set_status FAILED;
          Set_error_message "Job timed out after 5 minutes";
          Set_completed_at t ] ;;;
      ret (Result_failed (Some "Job timed out"))
  end.

(** Lines 72-213: the body of the outer [try].  [job_id] is the text of a UUID
    as [str] writes it, and the ids of the rows are such texts: line 72
    succeeds, and the rows are found by comparing the texts.  The session holds one object per row, so the [job]
    of line 75 is the object that [update_job] changes and returns. *)
Definition attempt (retries : Z) (job_uuid : string) : M task_result :=
  get_job_by_id job_uuid ;;;
  t <- utcnow ;;
  job <- update_job job_uuid
           [ Set_status PROCESSING; Set_started_at t; Set_retry_count retries ] ;;
  generate_and_poll job_uuid job.

(** [try: m  except Exception: pass] *)
Definition suppress {A} (m : M A) : M unit :=
  fun w => (inr tt, (m w).2).

(** Lines 215-228: the handler of the outer [try]. *)
Definition on_exception (job_uuid : string) (e : exn) : M task_result :=
  suppress
    (t <- utcnow ;;
     update_job job_uuid
       [ Set_status FAILED;
         Set_error_message ("Unexpected error: " ++ exn_msg e);
         Set_completed_at t ]) ;;;
  raise e.

(** The task: [retries] is [self.request.retries], the number of times the
    queue has re-run this task before this run. *)
Definition process_media_generation (retries : Z) (job_id : string) : M task_result :=
  try_except (attempt retries job_id) (fun _ => true) (on_exception job_id).

(** ** app/tasks/media_tasks.py: cleanup_old_files *)

(** Lines 250-255: the filter of the query. *)
Definition is_old_job (cutoff_date : Z) (job : Job) : bool :=
  bool_decide (status job = COMPLETED)
  && match completed_at job with Some t => t <? cutoff_date | None => false end
  && match file_path job with Some _ => true | None => false end.

(** Lines 260-270: the loop over the selected rows.  [delete_file] is an
    [async def] that line 263 calls without awaiting it, so the [if] tests a
    coroutine object.  [update_job] raises no [StorageError], so the count
    that the handler keeps is the one before the pass. *)
Fixpoint sweep (old_jobs : list Job) (deleted_count : Z) : M Z :=
  match old_jobs with
  | [] => ret deleted_count
  | job :: rest =>
      deleted_count <-
        try_except
          (c <- delete_file (id job) ;;
           if coroutine_truth c then
             let deleted_count := deleted_count + 1 in
             update_job (id job) [Set_file_path None; Set_result_url None] ;;;
             ret deleted_count
           else ret deleted_count)
          is_StorageError
          (fun _ => ret deleted_count) ;;
      sweep rest deleted_count
  end.

(** The task returns [{"deleted_files": deleted_count}]. *)
Definition cleanup_old_files (days_old : Z) : M Z :=
  t <- utcnow ;;
  let cutoff_date := t - 86400 * days_old in
  w <- get_world ;;
  let old_jobs := List.filter (is_old_job cutoff_date) (jobs w) in
  sweep old_jobs 0.

End Tasks.

(** ** app/api/media.py: cancel_job *)

(** The row is changed and committed as it is: no other column is touched. *)
Definition cancel_job (job_id : string) (w : World) : (http_error + string) * World :=
  match find_job (jobs w) job_id with
  | None => (inl (HTTPException 404 ("Job " ++ job_id ++ " not found")), w)
  | Some job =>
      if terminal (status job)
      then (inl (HTTPException 400
                   ("Cannot cancel job with status: " ++ status_value (status job))), w)
      else (inr ("Job " ++ job_id ++ " cancelled successfully"),
            with_jobs (store_job (jobs w) job_id (setattr job (Set_status CANCELLED))) w)
  end.

(** ** app/services/storage.py: the methods that read, and the rest *)

(** The world records which paths exist, not what the files hold: what a read
    of a file that exists returns is given from outside. *)
Record FileContents : Type := mkFileContents {
  read_bytes : string -> list Byte.byte;
  read_text : string -> string
}.

(** What [json.loads] raises on a text that it rejects.  Its message names
    the fault and its place, which are not computed here: the text below only
    stands for it. *)
Definition json_decode_error : exn :=
  Exn ValueError "Expecting value: line 1 column 1 (char 0)".

(** [await c] inside an [async def]: the body of the coroutine runs. *)
Definition await {A} (c : coroutine A) : M A := co_body c.

Definition get_file_body (fc : FileContents) (job_id extension : string)
    : M (list Byte.byte) :=
  as_StorageError "Failed to read file for job " job_id
    (let file_path := _generate_file_path job_id extension in
     present <- path_exists file_path ;;
     if negb present
     then raise (Exn StorageError ("File not found for job " ++ job_id))
     else ret (read_bytes fc file_path)).

Definition get_metadata_body (env : Env) (fc : FileContents) (job_id : string)
    : M pyval :=
  as_StorageError "Failed to read metadata for job " job_id
    (let metadata_path := _generate_metadata_path job_id in
     present <- path_exists metadata_path ;;
     if negb present
     then raise (Exn StorageError ("Metadata not found for job " ++ job_id))
     else
       let content := read_text fc metadata_path in
       match json_loads env content with
       | Some metadata => ret metadata
       | None => raise json_decode_error
       end).

Definition delete_metadata_body (job_id : string) : M bool :=
  as_StorageError "Failed to delete metadata for job " job_id
    (let metadata_path := _generate_metadata_path job_id in
     present <- path_exists metadata_path ;;
     if present then os_remove metadata_path ;;; ret true
     else ret false).

(** The methods as the endpoints call them, with the default extension.  The
    log of the world keeps the calls of the tasks; these are not in it. *)
Definition get_file (fc : FileContents) (job_id : string)
    : M (coroutine (list Byte.byte)) :=
  ret (Coroutine (get_file_body fc job_id "png")).

Definition get_metadata (env : Env) (fc : FileContents) (job_id : string)
    : M (coroutine pyval) :=
  ret (Coroutine (get_metadata_body env fc job_id)).

Definition delete_metadata (job_id : string) : M (coroutine bool) :=
  ret (Coroutine (delete_metadata_body job_id)).

Definition get_file_url (job_id extension : string) : string :=
  _generate_file_url job_id extension.

Definition get_file_path (job_id extension : string) : string :=
  _generate_file_path job_id extension.

Definition get_metadata_path (job_id : string) : string :=
  _generate_metadata_path job_id.

(** ** app/models/job.py: the schemas of the API *)

(** [JobCreate], once the request is validated: the defaults of [JobBase]
    ("stable-diffusion", no parameters, [PENDING]) have been filled in for
    what the request left out. *)
Record JobCreate : Type := mkJobCreate {
  req_prompt : string;
  req_model_name : string;
  req_parameters : option string;
  req_status : JobStatus
}.

(** [JobResponse]: the row without [file_path] and [external_job_id]. *)
Record JobResponse : Type := mkJobResponse {
  resp_prompt : string;
  resp_model_name : string;
  resp_parameters : option string;
  resp_status : JobStatus;
  resp_id : string;
  resp_created_at : Z;
  resp_updated_at : option Z;
  resp_started_at : option Z;
  resp_completed_at : option Z;
  resp_retry_count : Z;
  resp_error_message : option string;
  resp_result_url : option string;
  resp_file_size : option Z
}.

(** [JobResponse.model_validate(job.model_dump())] *)
Definition job_response (job : Job) : JobResponse :=
  mkJobResponse (prompt job) (model_name job) (parameters job) (status job)
    (id job) (created_at job) (updated_at job) (started_at job)
    (completed_at job) (retry_count job) (error_message job) (result_url job)
    (file_size job).

(** [Job.model_validate(job_request.model_dump())]: the four fields of the
    request, the defaults of [Job] for the others; [uuid4] and [created] are
    what the two default factories, [uuid4] and [datetime.utcnow], give. *)
Definition new_job (uuid4 : string) (created : Z) (job_request : JobCreate) : Job :=
  mkJob uuid4 (req_prompt job_request) (req_model_name job_request)
    (req_parameters job_request) (req_status job_request) created
    None None None 0 None None None None None.

(** ** app/api/media.py: the other endpoints *)

(** What the database raises at the commit when the key of the new row is
    taken. *)
Definition integrity_error : exn :=
  Exn OtherException "duplicate key value violates unique constraint".

(** [create_generation_job]: [uuid4] is the key drawn for the new row, and
    [delay] is [process_media_generation.delay], which answers once the broker
    has the message.  The row is committed before the task is queued, so the
    rollback of the handler finds nothing to undo when [delay] raises. *)
Definition create_generation_job (uuid4 : string) (delay : string -> exn + unit)
    (job_request : JobCreate) (w : World) : (http_error + JobResponse) * World :=
  let job := new_job uuid4 (now w) job_request in
  match find_job (jobs w) uuid4 with
  | Some _ =>
      (inl (HTTPException 500 ("Failed to create job: " ++ exn_msg integrity_error)), w)
  | None =>
      let w' := with_jobs (jobs w ++ [job]) w in
      match delay (id job) with
      | inl e => (inl (HTTPException 500 ("Failed to create job: " ++ exn_msg e)), w')
      | inr _ => (inr (job_response job), w')
      end
  end.

(** [get_job_status] *)
Definition get_job_status (job_id : string) (w : World) : http_error + JobResponse :=
  match find_job (jobs w) job_id with
  | None => inl (HTTPException 404 ("Job " ++ job_id ++ " not found"))
  | Some job => inr (job_response job)
  end.

(** [Job.created_at.desc()]: of two rows the one created later comes first.
    The database leaves the order of rows created at the same time open. *)
Definition created_later (a b : Job) : Prop := created_at b <= created_at a.

#[global] Instance created_later_dec : RelDecision created_later.
Proof. intros a b. unfold created_later. apply _. Defined.

(** [list_jobs]: the rows with the status asked for, if one is asked for, by
    creation time, the later first; [offset] rows are skipped and at most
    [limit] returned.  The framework admits [limit] from 1 to 100 and
    [offset] from 0. *)
Definition list_jobs (status_filter : option JobStatus) (limit offset : nat)
    (w : World) : list JobResponse :=
  let selected :=
    match status_filter with
    | Some s => List.filter (fun job => bool_decide (status job = s)) (jobs w)
    | None => jobs w
    end in
  List.map job_response (take limit (drop offset (merge_sort created_later selected))).

Record FileResponse : Type := mkFileResponse {
  response_path : string;
  response_filename : string;
  response_media_type : string
}.

(** [download_media_file].  The file served is the one at the path that the
    storage service derives from the id of the job; of [job.file_path] only
    the truth value is read. *)
Definition download_media_file (fc : FileContents) (job_id : string) (w : World)
    : http_error + FileResponse :=
  match find_job (jobs w) job_id with
  | None => inl (HTTPException 404 ("Job " ++ job_id ++ " not found"))
  | Some job =>
      if negb (bool_decide (status job = COMPLETED)) then
        inl (HTTPException 400
               ("Job " ++ job_id ++ " is not completed. Status: "
                ++ status_value (status job)))
      else if negb (truthy (file_path job)) then
        inl (HTTPException 404 ("No file available for job " ++ job_id))
      else
        match (c <- get_file fc job_id ;; await c) w with
        | (inr _, _) =>
            let temp_path := get_file_path job_id "png" in
            inr (mkFileResponse temp_path ("generated_" ++ job_id ++ ".png") "image/png")
        | (inl e, _) =>
            if is_StorageError e
            then inl (HTTPException 404 ("File not found for job " ++ job_id))
            else inl (HTTPException 500 ("Failed to download file: " ++ exn_msg e))
        end
  end.

(** [get_job_metadata] *)
Definition get_job_metadata (env : Env) (fc : FileContents) (job_id : string)
    (w : World) : http_error + pyval :=
  match find_job (jobs w) job_id with
  | None => inl (HTTPException 404 ("Job " ++ job_id ++ " not found"))
  | Some job =>
      match (c <- get_metadata env fc job_id ;; await c) w with
      | (inr metadata, _) => inr metadata
      | (inl e, _) =>
          if is_StorageError e
          then inl (HTTPException 404 ("Metadata not found for job " ++ job_id))
          else inl (HTTPException 500 ("Failed to get job metadata: " ++ exn_msg e))
      end
  end.

(** ** app/services/replicate_client.py: RealReplicateClient *)

(** [sep in s] and [s.split(sep)] for a separator of one character. *)
Fixpoint str_contains (sep : Ascii.ascii) (s : string) : bool :=
  match s with
  | EmptyString => false
  | String c s' => Ascii.eqb c sep || str_contains sep s'
  end.

Fixpoint str_split (sep : Ascii.ascii) (s : string) : list string :=
  match s with
  | EmptyString => [EmptyString]
  | String c s' =>
      if Ascii.eqb c sep then EmptyString :: str_split sep s'
      else match str_split sep s' with
           | part :: parts => String c part :: parts
           | [] => [String c EmptyString]
           end
  end.

(** What a call of the [requests] library comes to: it raises [Timeout], or
    another [RequestException], or returns a response.  [response.json()]
    decodes the body or raises: a [RequestException] in the versions of the
    library whose [JSONDecodeError] is one, and an error that is none in the
    versions that raise the [ValueError] of the decoder. *)
Module requests.

Inductive json_result : Type :=
| Decoded (value : pyval)
| NotJSON (is_RequestException : bool) (message : string).

Record Response : Type := mkResponse {
  status_code : Z;
  text : string;
  json : json_result;
  content : list Byte.byte
}.

Inductive outcome : Type :=
| Timeout
| RequestException (message : string)
| Returned (response : Response).

End requests.

Module RealReplicateClient.

Definition base_url : string := "https://api.replicate.com/v1".

Definition flux_schnell : string :=
  "black-forest-labs/flux-schnell:bf2f3f8fcd2c8bafa49d6f72e342c33c5463d78947f7a0eb8a6eb5da05c4e0c2".

(** Lines 48-52: the model when none, or "stable-diffusion", is asked for. *)
Definition default_model (model : string) : string :=
  if String.eqb model "" || String.eqb model "stable-diffusion"
  then flux_schnell else model.

(** Line 56: [model.split(":")[-1] if ":" in model else model] *)
Definition version (model : string) : string :=
  if str_contains ":"%char model then List.last (str_split ":"%char model) "" else model.

Definition payload (model : string) (input_data : pydict) : pydict :=
  [ ("version", PyStr (version model)); ("input", PyDict input_data) ].

(** [return response.json()] inside the [try] of lines 60-74 and 91-103: the
    handler of [requests.RequestException] catches the error of a body that
    is not JSON when that error is one, and lets it pass when it is not. *)
Definition return_json (response : requests.Response) : exn + pyval :=
  match requests.json response with
  | requests.Decoded value => inr value
  | requests.NotJSON true e => inl (Exn ReplicateAPIError ("Network error: " ++ e))
  | requests.NotJSON false e => inl (Exn ValueError e)
  end.

(** [create_prediction]; [post url payload] is
    [requests.post(url, headers=self.headers, json=payload, timeout=30)]. *)
Definition create_prediction (post : string -> pydict -> requests.outcome)
    (model : string) (input_data : pydict) : exn + pyval :=
  let model := default_model model in
  let url := base_url ++ "/predictions" in
  match post url (payload model input_data) with
  | requests.Returned response =>
      if requests.status_code response =? 201 then return_json response
      else inl (Exn ReplicateAPIError
                  ("API request failed with status "
                   ++ pretty (requests.status_code response) ++ ": "
                   ++ requests.text response))
  | requests.Timeout => inl (Exn ReplicateAPIError "Request timed out")
  | requests.RequestException e => inl (Exn ReplicateAPIError ("Network error: " ++ e))
  end.

(** [get_prediction]; [get url] is
    [requests.get(url, headers=self.headers, timeout=30)]. *)
Definition get_prediction (get : string -> requests.outcome)
    (prediction_id : string) : exn + pyval :=
  let url := base_url ++ "/predictions/" ++ prediction_id in
  match get url with
  | requests.Returned response =>
      if requests.status_code response =? 200 then return_json response
      else inl (Exn ReplicateAPIError
                  ("API request failed with status "
                   ++ pretty (requests.status_code response) ++ ": "
                   ++ requests.text response))
  | requests.Timeout => inl (Exn ReplicateAPIError "Request timed out")
  | requests.RequestException e => inl (Exn ReplicateAPIError ("Network error: " ++ e))
  end.

End RealReplicateClient.

(** ** app/services/replicate_client.py: ReplicateService, the rest *)

Module ReplicateService.

(** [__init__]: the real client is used when the token is set and is not the
    token of the demonstration; otherwise the mock client is. *)
Definition use_real_api (replicate_api_token : string) : bool :=
  negb (String.eqb replicate_api_token "")
  && negb (String.eqb replicate_api_token "mock_token_for_demo").

(** Lines 156-157 of [generate_image]:
    [response = self.client.create_prediction(model, input_data)] and
    [response["id"]].  [real] is what these give with the real client.  The
    methods of the mock client are [async def], so with it [response] is a
    coroutine object, which has no subscript. *)
Definition response_id (use_real_api : bool) (real : exn + string) : exn + string :=
  if use_real_api then real
  else inl (Exn TypeError "'coroutine' object is not subscriptable").

(** Lines 182-193 of [download_result]; [get url] is
    [requests.get(image_url, timeout=60)]. *)
Definition download_result (get : string -> requests.outcome) (image_url : string)
    : exn + list Byte.byte :=
  match get image_url with
  | requests.Returned response =>
      if requests.status_code response =? 200 then inr (requests.content response)
      else inl (Exn ReplicateAPIError
                  ("Failed to download image: HTTP "
                   ++ pretty (requests.status_code response)))
  | requests.Timeout => inl (Exn ReplicateAPIError "Image download timed out")
  | requests.RequestException e =>
      inl (Exn ReplicateAPIError ("Network error downloading image: " ++ e))
  end.

End ReplicateService.

(** The surroundings of the tasks when the service is built from the settings
    with the token [replicate_api_token]; [env] gives what the real client
    answers. *)
Definition service_env (replicate_api_token : string) (env : Env) : Env :=
  mkEnv (json_loads env) (isoformat env)
    (fun n model input_data =>
       ReplicateService.response_id
         (ReplicateService.use_real_api replicate_api_token)
         (create_prediction env n model input_data))
    (get_prediction env) (http_download env).

(** ** Vocabulary of the proofs *)

(** The columns that [update_job] can be asked to write. *)
Inductive field : Type :=
| F_status
| F_started_at
| F_completed_at
| F_retry_count
| F_error_message
| F_result_url
| F_file_path
| F_file_size
| F_external_job_id.

Definition field_of (u : field_update) : field :=
  match u with
  | Set_status _ => F_status
  | Set_started_at _ => F_started_at
  | Set_completed_at _ => F_completed_at
  | Set_retry_count _ => F_retry_count
  | Set_error_message _ => F_error_message
  | Set_result_url _ => F_result_url
  | Set_file_path _ => F_file_path
  | Set_file_size _ => F_file_size
  | Set_external_job_id _ => F_external_job_id
  end.

(** The collaborator methods. *)
Inductive call_kind : Type :=
| K_create_prediction
| K_get_prediction
| K_download_result
| K_save_metadata
| K_save_file
| K_delete_file.

Definition kind_of (ev : event) : call_kind :=
  match ev with
  | Ev_create_prediction _ _ => K_create_prediction
  | Ev_get_prediction _ => K_get_prediction
  | Ev_download_result _ _ => K_download_result
  | Ev_save_metadata _ _ => K_save_metadata
  | Ev_save_file _ _ _ => K_save_file
  | Ev_delete_file _ => K_delete_file
  end.

(** [writes fields us]: every update of [us] writes one of [fields]. *)
Definition writes (fields : field -> bool) (us : list field_update) : bool :=
  forallb (fun u => fields (field_of u)) us.

(** A computation keeps a property of the world, whether it returns or raises. *)
Definition preserves {A} (P : World -> Prop) (m : M A) : Prop :=
  forall w, P w -> P (m w).2.

(** The row of a job in a world. *)
Definition job_at (w : World) (job_id : string) : option Job :=
  find_job (jobs w) job_id.

(** The world after the task ran once for each retry index of [runs], in order. *)
Fixpoint advance_many (env : Env) (runs : list Z) (job_id : string) (w : World) : World :=
  match runs with
  | [] => w
  | retries :: runs' =>
      advance_many env runs' job_id (process_media_generation env retries job_id w).2
  end.


(** A poll answer that reports the generation as still running. *)
Definition still_processing (p : prediction) : Prop :=
  pred_status p = Some "processing".

(** A poll answer that reports success without any output. *)
Definition succeeded_without_output (p : prediction) : Prop :=
  pred_status p = Some "succeeded" /\ (pred_output p = None \/ pred_output p = Some []).

(** What one pass of the polling loop does to the world when the answer says
    "processing": the call is logged and ten seconds pass. *)
Definition waited (h : option string) (w : World) : World :=
  with_now (now w + 10) (log (Ev_get_prediction h) w).

(** The result columns of a row. *)
Definition result_of (j : Job) : option string * option string * option Z :=
  (result_url j, file_path j, file_size j).

(** The row has an error message that is not empty. *)
Definition has_error (j : Job) : bool := truthy (error_message j).

(** The row has a result: one of its result columns is set. *)
Definition has_result (j : Job) : bool :=
  match result_url j, file_path j, file_size j with
  | None, None, None => false
  | _, _, _ => true
  end.

(** The row of job [i] exists and has the property [good]. *)
Definition row_has (i : string) (good : Job -> Prop) (w : World) : Prop :=
  exists j, job_at w i = Some j /\ good j.

(** A row that records a failure: status Failed and an error message that
    is not empty. *)
Definition failed_with_error (j : Job) : Prop :=
  status j = FAILED /\ has_error j = true.


(** Sets of collaborator methods and of columns, as the lemmas on preserved
    properties take them. *)
Definition all_kinds (k : call_kind) : bool := true.

Definition all_fields (f : field) : bool := true.

Definition not_create_prediction (k : call_kind) : bool :=
  match k with K_create_prediction => false | _ => true end.

Definition not_external_job_id (f : field) : bool :=
  match f with F_external_job_id => false | _ => true end.

Definition not_retry_count (f : field) : bool :=
  match f with F_retry_count => false | _ => true end.

Definition not_result (f : field) : bool :=
  match f with F_result_url | F_file_path | F_file_size => false | _ => true end.

(** The keyword arguments of the updates of the task. *)
Definition first_update (r t : Z) : list field_update :=
  [Set_status PROCESSING; Set_started_at t; Set_retry_count r].

Definition unexpected_error (e : exn) (t : Z) : list field_update :=
  [ Set_status FAILED;
    Set_error_message ("Unexpected error: " ++ exn_msg e);
    Set_completed_at t ].

Definition timed_out (t : Z) : list field_update :=
  [ Set_status FAILED;
    Set_error_message "Job timed out after 5 minutes";
    Set_completed_at t ].

(** A service that answers every poll with "processing". *)
Definition always_processing (env : Env) : Prop :=
  forall n hd, exists p, get_prediction env n hd = inr p /\ still_processing p.

(** The parameters are a mapping that names no argument of [generate_image]
    again, so that the call reaches the client. *)
Definition params_ok (params : pyval) (kwargs : pydict) : Prop :=
  params = PyDict kwargs
  /\ dict_has kwargs "self" || dict_has kwargs "prompt" || dict_has kwargs "model" = false.


(** The start phase will succeed: the disk takes the metadata file, the
    parameters reach the client, and the client accepts the submission. *)
Definition submission_accepted (env : Env) (w : World) (j : Job) : Prop :=
  writable w = true
  /\ exists kwargs hd,
       params_ok (parse_parameters env j) kwargs
       /\ create_prediction env (count_calls is_create_prediction (calls w))
            (model_name j) (build_input (prompt j) kwargs) = inr hd.

(** The row of a job given up after the last poll. *)
Definition timed_out_row (j : Job) : Prop :=
  status j = FAILED /\ error_message j = Some "Job timed out after 5 minutes".


(** Two rows carry the same request and the same external id. *)
Definition same_request (j j' : Job) : Prop :=
  parameters j' = parameters j /\ prompt j' = prompt j /\ model_name j' = model_name j
  /\ external_job_id j' = external_job_id j.

(** The row [j'] is [j] after the exception [e] was recorded on it by the
    outer handler of the task. *)
Definition recorded_unexpected (e : exn) (j j' : Job) : Prop :=
  status j' = FAILED
  /\ error_message j' = Some ("Unexpected error: " ++ exn_msg e)
  /\ same_request j j'.



(** A service that answers every poll with "succeeded" and no output. *)
Definition always_without_output (env : Env) : Prop :=
  forall n hd, exists p, get_prediction env n hd = inr p /\ succeeded_without_output p.





(** The run goes straight to polling and, after [k] answers "processing", with
    [k] below the cap, the service answers the check with [p]. *)
Definition poll_answers (env : Env) (w : World) (j : Job) (k : nat) (p : prediction) : Prop :=
  truthy (external_job_id j) = true
  /\ (k < max_attempts)%nat
  /\ (forall m, (m < k)%nat ->
        exists q, get_prediction env (m + count_calls is_get_prediction (calls w))
                    (external_job_id j) = inr q /\ still_processing q)
  /\ get_prediction env (k + count_calls is_get_prediction (calls w))
       (external_job_id j) = inr p.

(** What [a, b = c] raises when [c] is a coroutine object. *)
Definition cannot_unpack : exn :=
  Exn TypeError "cannot unpack non-iterable coroutine object".


(** The row [j] after the sweep has cleared its file references, at time [t]. *)
Definition swept (t : Z) (j : Job) : Job :=
  set_updated_at t (fold_left setattr [Set_file_path None; Set_result_url None] j).

(** The table after a sweep at time [t] that selects the rows that [selected]
    accepts. *)
Definition swept_table (t : Z) (selected : Job -> bool) (rows : list Job) : list Job :=
  List.map (fun j => if selected j then swept t j else j) rows.

(** The calls of [delete_file] that a sweep over [old_jobs] makes, the latest
    first. *)
Definition deletions (old_jobs : list Job) : list event :=
  rev (List.map (fun j => Ev_delete_file (id j)) old_jobs).

(** The message of the [StorageError] that [get_file] raises for a job
    without file: the error raised inside the [try] is caught by the handler
    of the same [try] and wrapped again. *)
Definition file_not_found (job_id : string) : exn :=
  Exn StorageError
    ("Failed to read file for job " ++ job_id ++ ": File not found for job " ++ job_id).




(** The computation changes the disk at no path but [path], and nothing else
    in the world. *)
Definition touches_only {A} (path : string) (m : M A) : Prop :=
  forall w,
    (forall p, p <> path -> p ∈ files (m w).2 <-> p ∈ files w)
    /\ jobs (m w).2 = jobs w /\ writable (m w).2 = writable w
    /\ now (m w).2 = now w /\ calls (m w).2 = calls w.

(** The order of the responses of [list_jobs]: the later job first. *)
Definition listed_before (a b : JobResponse) : Prop :=
  resp_created_at b <= resp_created_at a.

(** What [download_media_file] serves for a job. *)
Definition served_file (job_id : string) : FileResponse :=
  mkFileResponse (get_file_path job_id "png") ("generated_" ++ job_id ++ ".png") "image/png".

(** The keyword arguments that [generate_image] reads, with the value each
    takes when the caller does not give it. *)
Definition tunable : list (string * pyval) :=
  [ ("width", PyInt 1024);
    ("height", PyInt 1024);
    ("num_inference_steps", PyInt 4);
    ("guidance_scale", PyFloat (7 # 2));
    ("seed", PyNone) ].

(** The entry of the payload for a key that the caller may set: the value
    given, or else the default, unless that is [None]. *)
Definition payload_entry (kwargs : pydict) (key : string) (default : pyval) : option pyval :=
  let v := dict_get kwargs key default in
  if is_none v then None else Some v.


(** The text that [str] gives for a UUID: 32 hexadecimal digits in lower
    case, in groups of 8, 4, 4, 4 and 12 joined by hyphens.  [UUID(text)]
    accepts such a text, and [str(UUID(text))] gives it back; other spellings
    of a UUID, which [UUID] also accepts, are left out. *)
Definition is_hex_digit (c : Ascii.ascii) : bool :=
  let n := Ascii.nat_of_ascii c in
  ((48 <=? n) && (n <=? 57) || (97 <=? n) && (n <=? 102))%nat.

(** What follows [n] hexadecimal digits at the head of [s], if [s] begins
    with as many. *)
Fixpoint hex_digits (n : nat) (s : string) : option string :=
  match n, s with
  | O, _ => Some s
  | S n', String c s' => if is_hex_digit c then hex_digits n' s' else None
  | S _, EmptyString => None
  end.

(** The same for a group of [n] digits and the hyphen that closes it. *)
Definition hex_group (n : nat) (s : string) : option string :=
  match hex_digits n s with
  | Some (String "-" s') => Some s'
  | _ => None
  end.

Definition is_uuid_text (s : string) : bool :=
  match s1 ← hex_group 8 s; s2 ← hex_group 4 s1; s3 ← hex_group 4 s2;
        s4 ← hex_group 4 s3; hex_digits 12 s4 with
  | Some EmptyString => true
  | _ => false
  end.

(** The ids of the table are written as [str] writes a UUID. *)
Definition ids_are_uuid_texts (w : World) : Prop :=
  Forall (fun j => is_uuid_text (id j) = true) (jobs w).

(** What subscripting a coroutine object raises. *)
Definition not_subscriptable : exn :=
  Exn TypeError "'coroutine' object is not subscriptable".

(** The entries of the metadata that do not come from the parameters. *)
Definition metadata_base (env : Env) (job : Job) (external_job_id : string) : pydict :=
  [ ("prompt", PyStr (prompt job));
    ("model_name", PyStr (model_name job));
    ("external_job_id", PyStr external_job_id);
    ("created_at", PyStr (isoformat env (created_at job))) ].


(** ** Sample data, to run the tasks on *)

(** A table of [json.loads] with the one entry the examples need; any other
    text is taken to be malformed. *)
Definition sample_json_loads (text : string) : option pyval :=
  if String.eqb text "{}" then Some (PyDict []) else None.

(** No example reads the text of a date. *)
Definition sample_isoformat (t : Z) : string := "2024-01-01T00:00:00".

(** A service that answers every submission with [submit], the poll of rank
    [n] with [poll n], and every download with four bytes. *)
Definition sample_env (submit : exn + string) (poll : nat -> exn + prediction) : Env :=
  mkEnv sample_json_loads sample_isoformat
    (fun _ _ _ => submit) (fun n _ => poll n)
    (fun _ _ => inr [Byte.x89; Byte.x50; Byte.x4e; Byte.x47]).

Definition pred_processing : prediction :=
  mkPrediction (Some "processing") None Null.

Definition pred_succeeded : prediction :=
  mkPrediction (Some "succeeded") (Some ["https://replicate.delivery/img.png"]) Null.

Definition pred_succeeded_empty : prediction :=
  mkPrediction (Some "succeeded") (Some []) Null.

Definition pred_failed : prediction :=
  mkPrediction (Some "failed") None (Value "out of memory").

Definition request_timed_out : exn := Exn ReplicateAPIError "Request timed out".

(** A job as [create_generation_job] stores it. *)
Definition pending_job : Job :=
  mkJob "job-1" "a cat" "stable-diffusion" None PENDING 100
    None None None 0 None None None None None.

(** A job whose generation was submitted by an earlier run. *)
Definition submitted_job : Job :=
  mkJob "job-1" "a cat" "stable-diffusion" None PROCESSING 100
    (Some 200) (Some 200) None 0 None None None None (Some "ext-1").

(** A job recorded as completed, with its result. *)
Definition completed_job : Job :=
  mkJob "job-1" "a cat" "stable-diffusion" None COMPLETED 100
    (Some 300) (Some 200) (Some 300) 0 None
    (Some "http://localhost:8000/media/job-1.png")
    (Some "storage/media/job-1.png") (Some 4) (Some "ext-1").

(** A job whose parameters are not JSON. *)
Definition malformed_job : Job :=
  mkJob "job-1" "a cat" "stable-diffusion" (Some "width=512") PENDING 100
    None None None 0 None None None None None.

Definition world_of (job : Job) : World := mkWorld [job] ∅ true 1000 [].

(** The completed job with its file on disk, ten days after it completed. *)
Definition aged_world : World :=
  mkWorld [completed_job] {[ "storage/media/job-1.png" ]} true (300 + 86400 * 10) [].

(** A job completed a few minutes before the time of [three_jobs_world]. *)
Definition recent_job : Job :=
  mkJob "job-2" "a dog" "stable-diffusion" None COMPLETED 864000
    (Some 864100) (Some 864050) (Some 864100) 0 None
    (Some "http://localhost:8000/media/job-2.png")
    (Some "storage/media/job-2.png") (Some 4) (Some "ext-2").

(** A job that the service reported as failed. *)
Definition failed_job : Job :=
  mkJob "job-3" "a bird" "stable-diffusion" None FAILED 50
    (Some 90) (Some 60) (Some 90) 1 (Some "Generation failed: out of memory")
    None None None (Some "ext-3").

(** A table of three jobs, ten days after the first completed: one completed
    long ago, one completed lately, one failed; the files of the two completed
    jobs are on disk. *)
Definition three_jobs_world : World :=
  mkWorld [completed_job; recent_job; failed_job]
    ({[ "storage/media/job-1.png" ]} ∪ {[ "storage/media/job-2.png" ]})
    true (300 + 86400 * 10) [].

(** Files that hold a four-byte image and an empty JSON object. *)
Definition sample_contents : FileContents :=
  mkFileContents (fun _ => [Byte.x89; Byte.x50; Byte.x4e; Byte.x47]) (fun _ => "{}").

(** A request that leaves everything but the prompt to the defaults. *)
Definition sample_request : JobCreate :=
  mkJobCreate "a cat" "stable-diffusion" None PENDING.

(** A broker that takes every message, and one that is down. *)
Definition broker_up (job_id : string) : exn + unit := inr tt.

Definition broker_down (job_id : string) : exn + unit :=
  inl (Exn OtherException "Error 111 connecting to localhost:6379. Connection refused.").

(** A service whose [json.loads] reads every text as the list [[1]]. *)
Definition list_env : Env :=
  mkEnv (fun _ => Some (PyList [PyInt 1])) sample_isoformat
    (fun _ _ _ => inr "ext-1") (fun _ _ => inr pred_processing) (fun _ _ => inr []).


(** A table whose one row has the id that a UUID gives. *)
Definition uuid_job : Job :=
  mkJob "123e4567-e89b-12d3-a456-426614174000" "a cat" "stable-diffusion" None PENDING 100
    None None None 0 None None None None None.

(** ** The job table *)

Lemma find_job_id rows i j : find_job rows i = Some j -> id j = i.
Proof.
  induction rows as [|r rows IH]; simpl; [discriminate|].
  destruct (String.eqb (id r) i) eqn:E; [|exact IH].
  intros [= <-]. by apply String.eqb_eq.
Qed.

Lemma find_store_job rows i j j' :
  find_job rows i = Some j -> id j' = i -> find_job (store_job rows i j') i = Some j'.
Proof.
  intros Hf Hid. induction rows as [|r rows IH]; simpl in *; [discriminate|].
  destruct (String.eqb (id r) i) eqn:E; simpl.
  - by rewrite Hid, String.eqb_refl.
  - rewrite E. by apply IH.
Qed.

Lemma find_store_job_ne rows i i' j' :
  i <> i' -> id j' = i -> find_job (store_job rows i j') i' = find_job rows i'.
Proof.
  intros Hne Hid. induction rows as [|r rows IH]; simpl; [done|].
  destruct (String.eqb (id r) i) eqn:E; simpl.
  - apply String.eqb_eq in E. rewrite Hid, E.
    by destruct (String.eqb_spec i i').
  - by rewrite IH.
Qed.


Lemma id_setattr j u : id (setattr j u) = id j.
Proof. by destruct u. Qed.

Lemma id_fold_setattr us j : id (fold_left setattr us j) = id j.
Proof.
  revert j. induction us as [|u us IH]; intros j; simpl; [done|].
  by rewrite IH, id_setattr.
Qed.

Lemma update_job_found w i us j :
  job_at w i = Some j ->
  update_job i us w =
    (inr (set_updated_at (now w) (fold_left setattr us j)),
     with_jobs (store_job (jobs w) i (set_updated_at (now w) (fold_left setattr us j))) w).
Proof. unfold job_at, update_job. by intros ->. Qed.

Lemma update_job_missing w i us :
  job_at w i = None -> update_job i us w = (inl (not_found i), w).
Proof. unfold job_at, update_job. by intros ->. Qed.

Lemma job_at_update w i us j :
  job_at w i = Some j ->
  job_at (update_job i us w).2 i = Some (set_updated_at (now w) (fold_left setattr us j)).
Proof.
  intros Hj. rewrite (update_job_found _ _ _ _ Hj). unfold job_at. simpl.
  apply (find_store_job _ _ j); [exact Hj|].
  simpl. rewrite id_fold_setattr. by apply find_job_id in Hj.
Qed.

Lemma update_job_frame w i us :
  files (update_job i us w).2 = files w /\
  writable (update_job i us w).2 = writable w /\
  now (update_job i us w).2 = now w /\
  calls (update_job i us w).2 = calls w.
Proof. unfold update_job. by destruct (find_job (jobs w) i). Qed.

(** A column that no update of the list writes keeps its value. *)
Lemma fold_setattr_keeps {A} (proj : Job -> A) (fields : field -> bool) :
  (forall j u, fields (field_of u) = true -> proj (setattr j u) = proj j) ->
  forall us j, writes fields us = true -> proj (fold_left setattr us j) = proj j.
Proof.
  intros Hk us. induction us as [|u us IH]; intros j Hw; simpl in *; [done|].
  apply andb_prop in Hw as [Hu Hus]. by rewrite IH, Hk.
Qed.

(** ** Composing preserved properties *)

Section Preserves.

Context {P : World -> Prop}.

Lemma preserves_ret {A} (a : A) : preserves P (ret a).
Proof. by intros w Hw. Qed.

Lemma preserves_raise {A} (e : exn) : preserves P (@raise A e).
Proof. by intros w Hw. Qed.

Lemma preserves_bind {A B} (m : M A) (k : A -> M B) :
  preserves P m -> (forall a, preserves P (k a)) -> preserves P (bind m k).
Proof.
  intros Hm Hk w Hw. unfold bind. specialize (Hm w Hw).
  destruct (m w) as [[e|a] w']; simpl in *; [done|]. by apply Hk.
Qed.

Lemma preserves_try_except {A} (m : M A) handles (h : exn -> M A) :
  preserves P m -> (forall e, preserves P (h e)) -> preserves P (try_except m handles h).
Proof.
  intros Hm Hh w Hw. unfold try_except. specialize (Hm w Hw).
  destruct (m w) as [[e|a] w']; simpl in *; [|done].
  destruct (handles e); [by apply Hh|done].
Qed.

Lemma preserves_bind_raise {A B} (e : exn) (k : A -> M B) :
  preserves P (bind (raise e) k).
Proof. by intros w Hw. Qed.

Lemma preserves_suppress {A} (m : M A) : preserves P m -> preserves P (suppress m).
Proof. intros Hm w Hw. by apply Hm. Qed.

Lemma preserves_utcnow : preserves P utcnow.
Proof. by intros w Hw. Qed.

Lemma preserves_get_world : preserves P get_world.
Proof. by intros w Hw. Qed.

Lemma preserves_get_job_by_id i : preserves P (get_job_by_id i).
Proof. intros w Hw. unfold get_job_by_id. by destruct (find_job (jobs w) i). Qed.

Lemma preserves_modify f : (forall w, P w -> P (f w)) -> preserves P (modify f).
Proof. intros Hf w Hw. by apply Hf. Qed.

Lemma preserves_if {A} (b : bool) (m1 m2 : M A) :
  preserves P m1 -> preserves P m2 -> preserves P (if b then m1 else m2).
Proof. by destruct b. Qed.

End Preserves.

(** ** Properties that the phases of the task keep

    A property of the world that survives the logging of the calls of some
    kinds, the passing of time, changes of the disk, and the updates that write
    only some columns, survives every phase that makes only such calls and
    such updates. *)

Section Stable.

Variable env : Env.
Variable i : string.
Variable P : World -> Prop.
Variable kinds : call_kind -> bool.
Variable fields : field -> bool.

Hypothesis P_log : forall ev w, kinds (kind_of ev) = true -> P w -> P (log ev w).
Hypothesis P_now : forall t w, P w -> P (with_now t w).
Hypothesis P_files : forall fs w, P w -> P (with_files fs w).
Hypothesis P_update :
  forall us w, writes fields us = true -> P w -> P (update_job i us w).2.

Lemma preserves_update us : writes fields us = true -> preserves P (update_job i us).
Proof. intros Hus w Hw. by apply P_update. Qed.

Lemma preserves_sleep s : preserves P (sleep s).
Proof. apply preserves_modify. intros w Hw. by apply P_now. Qed.

Lemma preserves_write_file path : preserves P (write_file path).
Proof.
  intros w Hw. unfold write_file. destruct (writable w); simpl; [|done].
  by apply P_files.
Qed.

Lemma preserves_check_job_status h :
  kinds K_get_prediction = true -> preserves P (check_job_status env h).
Proof. intros Hk w Hw. simpl. by apply P_log. Qed.

Lemma preserves_download_result url prompt :
  kinds K_download_result = true -> preserves P (download_result env url prompt).
Proof. intros Hk w Hw. simpl. by apply P_log. Qed.

Lemma preserves_save_file j data ext :
  kinds K_save_file = true -> preserves P (save_file j data ext).
Proof.
  intros Hk. unfold save_file. apply preserves_bind; [|intros; apply preserves_ret].
  apply preserves_modify. intros w Hw. by apply P_log.
Qed.

Lemma preserves_save_metadata j md :
  kinds K_save_metadata = true -> preserves P (save_metadata j md).
Proof.
  intros Hk. unfold save_metadata. apply preserves_bind; [|intros; apply preserves_ret].
  apply preserves_modify. intros w Hw. by apply P_log.
Qed.

Lemma preserves_save_metadata_body j md : preserves P (save_metadata_body j md).
Proof.
  unfold save_metadata_body, as_StorageError.
  apply preserves_try_except; [|intros; apply preserves_raise].
  apply preserves_bind; [apply preserves_write_file|intros; apply preserves_ret].
Qed.

Lemma preserves_call_generate_image prompt model params :
  kinds K_create_prediction = true ->
  preserves P (call_generate_image env prompt model params).
Proof.
  intros Hk. unfold call_generate_image.
  destruct params; try apply preserves_raise.
  apply preserves_if; [apply preserves_raise|].
  intros w Hw. simpl. by apply P_log.
Qed.

(** The updates that record a failure. *)
Lemma preserves_fail msg :
  fields F_status = true -> fields F_error_message = true ->
  fields F_completed_at = true ->
  preserves P
    (t <- utcnow ;;
     update_job i [Set_status FAILED; Set_error_message msg; Set_completed_at t]).
Proof.
  intros H1 H2 H3. apply preserves_bind; [apply preserves_utcnow|].
  intros t. apply preserves_update. unfold writes. simpl. by rewrite H1, H2, H3.
Qed.

Lemma run_save_metadata_preserves {B} md (k : string -> M B) :
  kinds K_save_metadata = true ->
  (forall a, preserves P (k a)) ->
  preserves P (c <- save_metadata i md ;; a <- run_until_complete c ;; k a).
Proof.
  intros Hmeta Hk w Hw.
  assert (Hlog : P (log (Ev_save_metadata i md) w)) by by apply P_log.
  pose proof (preserves_save_metadata_body i md _ Hlog) as Hbody.
  unfold save_metadata, run_until_complete, bind, modify, ret. simpl.
  destruct (save_metadata_body i md (log (Ev_save_metadata i md) w))
    as [[e|a] w']; simpl in *; [done|]. by apply Hk.
Qed.

Section PollPhase.

Hypothesis poll_kinds :
  forallb kinds [K_get_prediction; K_download_result; K_save_file] = true.
Hypothesis poll_fields : forallb fields [F_status; F_error_message; F_completed_at] = true.

Lemma poll_once_preserves job : preserves P (poll_once env i job).
Proof.
  simpl in poll_kinds, poll_fields.
  repeat (apply andb_prop in poll_kinds as [? poll_kinds]).
  repeat (apply andb_prop in poll_fields as [? poll_fields]).
  unfold poll_once. apply preserves_try_except.
  - apply preserves_bind; [by apply preserves_check_job_status|]. intros result.
    apply preserves_bind.
    { unfold subscript_status. destruct (pred_status result);
        [apply preserves_ret|apply preserves_raise]. }
    intros st. destruct (String.eqb st "succeeded").
    + destruct (pred_output result) as [[|url urls]|]; try apply preserves_ret.
      apply preserves_bind; [by apply preserves_download_result|]. intros data.
      apply preserves_bind; [by apply preserves_save_file|]. intros c.
      (* the unpacking raises: the update to Completed is not reached *)
      apply preserves_bind_raise.
    + destruct (String.eqb st "failed").
      * apply (preserves_bind (A := Z)); [apply preserves_utcnow|]. intros t.
        apply preserves_bind; [|intros; apply preserves_ret].
        apply preserves_update. unfold writes. simpl.
        by repeat (apply andb_true_intro; split).
      * apply preserves_bind; [apply preserves_sleep|intros; apply preserves_ret].
  - intros e. apply (preserves_bind (A := Z)); [apply preserves_utcnow|]. intros t.
    apply preserves_bind; [|intros; apply preserves_raise].
    apply preserves_update. unfold writes. simpl.
    by repeat (apply andb_true_intro; split).
Qed.

Lemma poll_loop_preserves n job : preserves P (poll_loop env n i job).
Proof.
  induction n as [|n IH]; simpl; [apply preserves_ret|].
  apply preserves_bind; [apply poll_once_preserves|].
  intros [r|]; [apply preserves_ret|exact IH].
Qed.

Lemma on_exception_preserves e : preserves P (on_exception i e).
Proof.
  simpl in poll_fields.
  repeat (apply andb_prop in poll_fields as [? poll_fields]).
  unfold on_exception. apply preserves_bind; [|intros; apply preserves_raise].
  apply preserves_suppress. by apply preserves_fail.
Qed.

Lemma timeout_preserves (finished : option task_result) :
  preserves P
    (match finished with
     | Some r => ret r
     | None =>
         t <- utcnow ;;
         update_job i
           [ Set_status FAILED;
             Set_error_message "Job timed out after 5 minutes";
             Set_completed_at t ] ;;;
         ret (Result_failed (Some "Job timed out"))
     end).
Proof.
  simpl in poll_fields.
  repeat (apply andb_prop in poll_fields as [? poll_fields]).
  destruct finished; [apply preserves_ret|].
  apply (preserves_bind (A := Z)); [apply preserves_utcnow|]. intros t.
  apply preserves_bind; [|intros; apply preserves_ret].
  apply preserves_update. unfold writes. simpl.
  by repeat (apply andb_true_intro; split).
Qed.

(** The task from the polling loop on. *)
Lemma polling_preserves job :
  preserves P
    (finished <- poll_loop env max_attempts i job ;;
     match finished with
     | Some r => ret r
     | None =>
         t <- utcnow ;;
         update_job i
           [ Set_status FAILED;
             Set_error_message "Job timed out after 5 minutes";
             Set_completed_at t ] ;;;
         ret (Result_failed (Some "Job timed out"))
     end).
Proof.
  apply preserves_bind; [apply poll_loop_preserves|]. apply timeout_preserves.
Qed.

Section StartPhase.

Hypothesis start_kinds : forallb kinds [K_create_prediction; K_save_metadata] = true.
Hypothesis start_fields : fields F_external_job_id = true.

Lemma start_generation_preserves job : preserves P (start_generation env i job).
Proof.
  pose proof poll_fields as Hf. pose proof start_kinds as Hk. simpl in Hf, Hk.
  repeat (apply andb_prop in Hf as [? Hf]).
  repeat (apply andb_prop in Hk as [? Hk]).
  unfold start_generation. apply preserves_try_except.
  - apply preserves_bind; [by apply preserves_call_generate_image|]. intros h.
    apply preserves_bind.
    { apply preserves_update. unfold writes. simpl. by rewrite start_fields. }
    intros _. apply run_save_metadata_preserves; [done|]. intros; apply preserves_ret.
  - intros e. apply (preserves_bind (A := Z)); [apply preserves_utcnow|]. intros t.
    apply preserves_bind; [|intros; apply preserves_raise].
    apply preserves_update. unfold writes. simpl.
    by repeat (apply andb_true_intro; split).
Qed.

Lemma generate_and_poll_preserves job : preserves P (generate_and_poll env i job).
Proof.
  unfold generate_and_poll. apply preserves_bind.
  - apply preserves_if; [apply start_generation_preserves|apply preserves_ret].
  - intros job'. apply polling_preserves.
Qed.

(** The whole task keeps what its first update establishes. *)
Lemma task_establishes r w j :
  job_at w i = Some j ->
  P (update_job i
       [Set_status PROCESSING; Set_started_at (now w); Set_retry_count r] w).2 ->
  P (process_media_generation env r i w).2.
Proof.
  intros Hj H1.
  unfold process_media_generation, try_except, attempt, bind, get_job_by_id, utcnow.
  unfold job_at in Hj. rewrite Hj.
  destruct (update_job i _ w) as [[e|job] w1] eqn:E1; simpl in H1.
  - by apply on_exception_preserves.
  - pose proof (generate_and_poll_preserves job w1 H1) as H2.
    destruct (generate_and_poll env i job w1) as [[e|res] w2]; simpl in H2; [|done].
    by apply on_exception_preserves.
Qed.

End StartPhase.



(** A run that finds an external id on the row skips the start phase, so
    nothing is asked of what that phase would call or write. *)
Lemma generate_and_poll_resumed_preserves job :
  truthy (external_job_id job) = true -> preserves P (generate_and_poll env i job).
Proof.
  intros Hh. unfold generate_and_poll. rewrite Hh. simpl.
  apply preserves_bind; [apply preserves_ret|intros; apply polling_preserves].
Qed.

Lemma task_resumed_establishes r w j :
  job_at w i = Some j ->
  truthy (external_job_id j) = true ->
  P (update_job i
       [Set_status PROCESSING; Set_started_at (now w); Set_retry_count r] w).2 ->
  P (process_media_generation env r i w).2.
Proof.
  intros Hj Hh H1.
  unfold process_media_generation, try_except, attempt, bind, get_job_by_id, utcnow.
  pose proof (update_job_found w i
    [Set_status PROCESSING; Set_started_at (now w); Set_retry_count r] j Hj) as E1.
  unfold job_at in Hj. rewrite Hj. rewrite E1 in H1 |- *.
  match goal with |- context [generate_and_poll env i ?jb ?w1] =>
    pose proof (generate_and_poll_resumed_preserves jb Hh w1 H1) as H2;
    destruct (generate_and_poll env i jb w1) as [[e|res] w2] end;
    simpl in H2; [|done].
  by apply on_exception_preserves.
Qed.

End PollPhase.
End Stable.

(** ** Properties of one row *)

Section Row.

Variable i : string.
Variable good : Job -> Prop.
Variable fields : field -> bool.

Hypothesis good_setattr :
  forall j u, fields (field_of u) = true -> good j -> good (setattr j u).
Hypothesis good_updated : forall t j, good j -> good (set_updated_at t j).

Lemma good_fold us : forall j, writes fields us = true -> good j -> good (fold_left setattr us j).
Proof.
  induction us as [|u us IH]; intros j Hw Hj; simpl in *; [done|].
  apply andb_prop in Hw as [Hu Hus]. apply IH; [done|]. by apply good_setattr.
Qed.

Lemma row_has_update us w :
  writes fields us = true -> row_has i good w -> row_has i good (update_job i us w).2.
Proof.
  intros Hw (j & Hj & Hg). eexists. split; [by apply job_at_update|].
  apply good_updated. by apply good_fold.
Qed.

Lemma row_has_log ev w : row_has i good w -> row_has i good (log ev w).
Proof. done. Qed.

Lemma row_has_now t w : row_has i good w -> row_has i good (with_now t w).
Proof. done. Qed.

Lemma row_has_files fs w : row_has i good w -> row_has i good (with_files fs w).
Proof. done. Qed.

End Row.

(** The task never removes the row it works on. *)
Lemma task_keeps_row env r i w j :
  job_at w i = Some j ->
  exists j', job_at (process_media_generation env r i w).2 i = Some j'.
Proof.
  intros Hj.
  assert (row_has i (fun _ => True) (process_media_generation env r i w).2)
    as (j' & Hj' & _); [|by exists j'].
  apply (task_establishes env i (row_has i (fun _ => True)) all_kinds all_fields)
    with (j := j); try done.
  - intros us w'. by apply row_has_update.
  - apply (row_has_update i (fun _ => True) all_fields); try done. by exists j.
Qed.

Lemma task_retry_count env r i w j :
  job_at w i = Some j ->
  row_has i (fun j' => retry_count j' = r) (process_media_generation env r i w).2.
Proof.
  intros Hj.
  apply (task_establishes env i _ all_kinds not_retry_count) with (j := j); try done.
  - intros us w'. apply row_has_update; [|done]. intros j0 u Hu <-. by destruct u.
  - eexists. split; [by apply job_at_update|done].
Qed.

Lemma count_calls_log kind ev evs :
  count_calls kind (ev :: evs) =
    if kind ev then S (count_calls kind evs) else count_calls kind evs.
Proof. unfold count_calls. simpl. by destruct (kind ev). Qed.

(** With an external id on the row, one run neither calls [create_prediction]
    nor changes the id. *)
Lemma task_resumed_keeps_handle env r i w h n :
  h <> "" ->
  row_has i (fun j => external_job_id j = Some h) w ->
  count_calls is_create_prediction (calls w) = n ->
  row_has i (fun j => external_job_id j = Some h) (process_media_generation env r i w).2
  /\ count_calls is_create_prediction (calls (process_media_generation env r i w).2) = n.
Proof.
  intros Hh (j & Hj & Hid) Hn.
  set (P := fun w' : World =>
    row_has i (fun j => external_job_id j = Some h) w' /\
    count_calls is_create_prediction (calls w') = n).
  assert (Hupd : forall us w', writes not_external_job_id us = true ->
                               P w' -> P (update_job i us w').2).
  { intros us w' Hus [Hrow Hc]. split.
    - apply (row_has_update i _ not_external_job_id); try done.
      intros j0 u Hu <-. by destruct u.
    - by destruct (update_job_frame w' i us) as (_ & _ & _ & ->). }
  apply (task_resumed_establishes env i P not_create_prediction not_external_job_id)
    with (j := j); try done.
  - intros ev w' Hk [Hrow Hc]. split; [done|]. simpl.
    rewrite count_calls_log. by destruct ev.
  - rewrite Hid. simpl. by destruct (String.eqb_spec h "").
  - apply Hupd; [done|]. split; [by exists j|done].
Qed.

(** ** Resuming: the external id is the checkpoint *)

Lemma advance_many_keeps_handle env runs i : forall w h n,
  h <> "" ->
  row_has i (fun j => external_job_id j = Some h) w ->
  count_calls is_create_prediction (calls w) = n ->
  row_has i (fun j => external_job_id j = Some h) (advance_many env runs i w)
  /\ count_calls is_create_prediction (calls (advance_many env runs i w)) = n.
Proof.
  induction runs as [|r runs IH]; intros w h n Hh Hrow Hn; simpl; [done|].
  destruct (task_resumed_keeps_handle env r i w h n Hh Hrow Hn) as [Hrow' Hn'].
  by apply IH.
Qed.

(** C2.  When the row of a job has a non-empty external id, running the task
    for that job any number of times, with any retry indices and whatever the
    service answers, never calls the client's [create_prediction] (the
    submission), and leaves the external id of the row as it was. *)
Theorem resume_never_resubmits env runs i w j :
  job_at w i = Some j ->
  truthy (external_job_id j) = true ->
  count_calls is_create_prediction (calls (advance_many env runs i w))
    = count_calls is_create_prediction (calls w)
  /\ exists j', job_at (advance_many env runs i w) i = Some j'
                /\ external_job_id j' = external_job_id j.
Proof.
  intros Hj Hh. destruct (external_job_id j) as [h|] eqn:Hid; [|discriminate].
  assert (h <> "") as Hne.
  { intros ->. discriminate. }
  destruct (advance_many_keeps_handle env runs i w h
              (count_calls is_create_prediction (calls w)) Hne)
    as [(j' & Hj' & Hid') Hn]; [by exists j|reflexivity|].
  split; [exact Hn|]. exists j'. by rewrite Hid'.
Qed.

Lemma resume_never_resubmits_witness :
  let env := sample_env (inr "ext-2")
               (fun n => match n with O => inl request_timed_out | _ => inr pred_failed end) in
  let w := world_of submitted_job in
  count_calls is_create_prediction (calls (advance_many env [0; 1] "job-1" w))
    = count_calls is_create_prediction (calls w)
  /\ exists j', job_at (advance_many env [0; 1] "job-1" w) "job-1" = Some j'
                /\ external_job_id j' = external_job_id submitted_job.
Proof.
  apply (resume_never_resubmits _ [0; 1] "job-1" (world_of submitted_job) submitted_job);
    reflexivity.
Defined.

(** ** The retry counter *)

Lemma advance_many_keeps_row env runs i : forall w j,
  job_at w i = Some j -> exists j', job_at (advance_many env runs i w) i = Some j'.
Proof.
  induction runs as [|r runs IH]; intros w j Hj; simpl; [by exists j|].
  destruct (task_keeps_row env r i w j Hj) as [j1 Hj1]. by apply (IH _ j1).
Qed.

Lemma advance_many_app env runs1 runs2 i w :
  advance_many env (runs1 ++ runs2) i w
  = advance_many env runs2 i (advance_many env runs1 i w).
Proof. revert w. induction runs1 as [|r runs1 IH]; intros w; simpl; [done|]. by rewrite IH. Qed.

(** C5, as the code has it.  The task does not count its runs: it stores in
    [retry_count] the retry index that the queue passes to the run
    ([self.request.retries]: 0 for the first run, then 1, 2, ...).  So after
    any runs of the task on a job, [retry_count] is the retry index of the
    latest run, whatever the row held before. *)
Theorem retry_count_is_latest_retry_index env runs r i w j :
  job_at w i = Some j ->
  exists j', job_at (advance_many env (runs ++ [r]) i w) i = Some j'
             /\ retry_count j' = r.
Proof.
  intros Hj. rewrite advance_many_app. simpl.
  destruct (advance_many_keeps_row env runs i w j Hj) as [j1 Hj1].
  exact (task_retry_count env r i _ j1 Hj1).
Qed.

Lemma retry_count_is_latest_retry_index_witness :
  let env := sample_env (inr "ext-1") (fun _ => inr pred_processing) in
  exists j', job_at (advance_many env ([0; 1] ++ [2]) "job-1" (world_of pending_job)) "job-1"
               = Some j'
             /\ retry_count j' = 2.
Proof.
  apply (retry_count_is_latest_retry_index _ [0; 1] 2 "job-1" (world_of pending_job) pending_job).
  reflexivity.
Defined.

(** C5 fails as stated: the first run of the task on a pending job, which the
    queue starts with retry index 0, leaves [retry_count] at 0, not at 1. *)
Lemma retry_count_after_first_run :
  let env := sample_env (inr "ext-1") (fun _ => inr pred_processing) in
  let w' := (process_media_generation env 0 "job-1" (world_of pending_job)).2 in
  status pending_job = PENDING
  /\ (retry_count <$> job_at w' "job-1") = Some 0
  /\ (retry_count <$> job_at w' "job-1") <> Some 1.
Proof. vm_compute. repeat split; discriminate. Qed.

(** ** How a run ends *)

Lemma bind_returns {A B} (m : M A) (k : A -> M B) w b w' :
  bind m k w = (inr b, w') -> exists a w1, m w = (inr a, w1) /\ k a w1 = (inr b, w').
Proof.
  unfold bind. destruct (m w) as [[e|a] w1]; [discriminate|]. intros H. by exists a, w1.
Qed.

Lemma try_except_returns {A} (m : M A) handles (h : exn -> M A) w a w' :
  try_except m handles h w = (inr a, w') ->
  m w = (inr a, w') \/ exists e w1, m w = (inl e, w1) /\ h e w1 = (inr a, w').
Proof.
  unfold try_except. destruct (m w) as [[e|a1] w1]; [|by left].
  destruct (handles e); [|discriminate]. intros H. right. by exists e, w1.
Qed.

Lemma update_fail_row i msg t w w' j0 :
  row_has i (fun _ => True) w ->
  update_job i [Set_status FAILED; Set_error_message msg; Set_completed_at t] w = (inr j0, w') ->
  truthy (Some msg) = true ->
  row_has i failed_with_error w'.
Proof.
  intros (j & Hj & _) H Hm. rewrite (update_job_found _ _ _ _ Hj) in H.
  injection H as _ <-. eexists. split.
  - unfold job_at. simpl. apply (find_store_job _ _ j); [exact Hj|].
    simpl. by apply find_job_id in Hj.
  - split; [done|]. exact Hm.
Qed.

Lemma poll_once_return env i job w r w' :
  row_has i (fun _ => True) w ->
  poll_once env i job w = (inr (Return r), w') ->
  row_has i failed_with_error w'.
Proof.
  intros Hrow H. unfold poll_once in H.
  apply try_except_returns in H as [H|(e & w1 & _ & H)].
  - apply bind_returns in H as (result & w1 & H1 & H).
    assert (Hrow1 : row_has i (fun _ => True) w1).
    { unfold check_job_status in H1. injection H1 as _ <-. exact Hrow. }
    apply bind_returns in H as (st & w2 & H2 & H).
    assert (w2 = w1) as ->.
    { unfold subscript_status in H2. destruct (pred_status result); [|discriminate].
      by injection H2. }
    destruct (String.eqb st "succeeded").
    + destruct (pred_output result) as [[|url urls]|]; try discriminate.
      apply bind_returns in H as (data & w3 & _ & H).
      apply bind_returns in H as (c & w4 & _ & H).
      apply bind_returns in H as (pair & w5 & H5 & _). discriminate.
    + destruct (String.eqb st "failed").
      * apply bind_returns in H as (t & w3 & H3 & H). injection H3 as <- <-.
        apply bind_returns in H as (j0 & w4 & H4 & H). injection H as _ <-.
        by apply (update_fail_row _ _ _ _ _ _ Hrow1 H4).
      * apply bind_returns in H as (? & w3 & _ & H). discriminate.
  - apply bind_returns in H as (t & w3 & _ & H).
    apply bind_returns in H as (j0 & w4 & _ & H). discriminate.
Qed.

Lemma row_exists_preserved env i job :
  preserves (row_has i (fun _ => True)) (generate_and_poll env i job)
  /\ (forall n, preserves (row_has i (fun _ => True)) (poll_loop env n i job))
  /\ preserves (row_has i (fun _ => True)) (poll_once env i job)
  /\ preserves (row_has i (fun _ => True)) (start_generation env i job).
Proof.
  assert (Hupd : forall us w, writes all_fields us = true ->
            row_has i (fun _ => True) w -> row_has i (fun _ => True) (update_job i us w).2).
  { intros us w. by apply row_has_update. }
  repeat split; intros;
    first [ apply (generate_and_poll_preserves env i _ all_kinds all_fields)
          | apply (poll_loop_preserves env i _ all_kinds all_fields)
          | apply (poll_once_preserves env i _ all_kinds all_fields)
          | apply (start_generation_preserves env i _ all_kinds all_fields) ];
    done.
Qed.

Lemma poll_loop_return env i job n : forall w r w',
  row_has i (fun _ => True) w ->
  poll_loop env n i job w = (inr (Some r), w') ->
  row_has i failed_with_error w'.
Proof.
  induction n as [|n IH]; intros w r w' Hrow H; simpl in H; [discriminate|].
  apply bind_returns in H as (step & w1 & H1 & H). destruct step as [r1|].
  - injection H as _ <-. by apply (poll_once_return env i job w r1).
  - apply (IH w1 r w'); [|exact H].
    destruct (row_exists_preserved env i job) as (_ & _ & Hp & _).
    specialize (Hp w Hrow). by rewrite H1 in Hp.
Qed.

Lemma generate_and_poll_return env i job w r w' :
  row_has i (fun _ => True) w ->
  generate_and_poll env i job w = (inr r, w') ->
  row_has i failed_with_error w'.
Proof.
  intros Hrow H. unfold generate_and_poll in H.
  apply bind_returns in H as (job1 & w1 & H1 & H).
  assert (Hrow1 : row_has i (fun _ => True) w1).
  { destruct (negb (truthy (external_job_id job))).
    - destruct (row_exists_preserved env i job) as (_ & _ & _ & Hp).
      specialize (Hp w Hrow). by rewrite H1 in Hp.
    - by injection H1 as _ <-. }
  apply bind_returns in H as (fin & w2 & H2 & H). destruct fin as [r2|].
  - injection H as _ <-. by apply (poll_loop_return env i job1 max_attempts w1 r2).
  - assert (Hrow2 : row_has i (fun _ => True) w2).
    { destruct (row_exists_preserved env i job1) as (_ & Hp & _).
      specialize (Hp max_attempts w1 Hrow1). by rewrite H2 in Hp. }
    apply bind_returns in H as (t & w3 & H3 & H). injection H3 as <- <-.
    apply bind_returns in H as (j0 & w4 & H4 & H). injection H as _ <-.
    by apply (update_fail_row _ _ _ _ _ _ Hrow2 H4).
Qed.

Lemma on_exception_row i e w :
  row_has i (fun _ => True) w ->
  row_has i (fun j => status j = FAILED
                      /\ error_message j = Some ("Unexpected error: " ++ exn_msg e))
    (on_exception i e w).2
  /\ (on_exception i e w).1 = inl e.
Proof.
  intros (j & Hj & _). unfold on_exception, suppress, bind, utcnow, raise. simpl.
  split; [|done]. rewrite (update_job_found _ _ _ _ Hj). simpl.
  eexists. split.
  - unfold job_at. simpl. apply (find_store_job _ _ j); [exact Hj|].
    simpl. by apply find_job_id in Hj.
  - done.
Qed.

(** Whatever the service answers, a run leaves the job Failed with an error
    message; it returns a result only after recording a failure of its own, and
    any exception is recorded as "Unexpected error" before it is passed on.  In
    particular no run leaves the job Completed: the only update that would do
    so comes after the unpacking of what [save_file] returned, which is a
    coroutine object, and that unpacking raises. *)
Lemma task_leaves_failed env r i w j :
  job_at w i = Some j ->
  row_has i failed_with_error (process_media_generation env r i w).2.
Proof.
  intros Hj.
  assert (Hrow1 : row_has i (fun _ => True)
            (update_job i [Set_status PROCESSING; Set_started_at (now w); Set_retry_count r]
               w).2).
  { eexists. split; [by apply job_at_update|done]. }
  unfold process_media_generation, try_except, attempt, bind, get_job_by_id, utcnow.
  pose proof (update_job_found w i
    [Set_status PROCESSING; Set_started_at (now w); Set_retry_count r] j Hj) as E1.
  unfold job_at in Hj. rewrite Hj. rewrite E1 in Hrow1 |- *. simpl in Hrow1.
  match goal with |- context [generate_and_poll env i ?jb ?w1] =>
    destruct (row_exists_preserved env i jb) as (Hp & _); specialize (Hp w1 Hrow1);
    pose proof (generate_and_poll_return env i jb w1) as Hret;
    destruct (generate_and_poll env i jb w1) as [[e|res] w2] end; simpl in Hp.
  - destruct (on_exception_row i e w2 Hp) as [(j' & Hj' & Hs & Hm) _].
    exists j'. split; [done|]. split; [done|]. unfold has_error. by rewrite Hm.
  - simpl. by apply (Hret res).
Qed.

(** The scenario of a generation that succeeds: the submission is accepted, the
    first poll answers "processing", the second "succeeded" with an output,
    and the download returns four bytes.  The run raises the [TypeError] of the
    unpacking and leaves the job Failed; nothing is written to the disk but the
    metadata. *)
Example successful_generation_is_not_stored :
  let env := sample_env (inr "ext-1")
               (fun n => match n with O => inr pred_processing | _ => inr pred_succeeded end) in
  let run := process_media_generation env 0 "job-1" (world_of pending_job) in
  run.1 = inl (Exn TypeError "cannot unpack non-iterable coroutine object")
  /\ map kind_of (rev (calls run.2))
     = [ K_create_prediction; K_save_metadata; K_get_prediction; K_get_prediction;
         K_download_result; K_save_file ]
  /\ (status <$> job_at run.2 "job-1") = Some FAILED
  /\ (error_message <$> job_at run.2 "job-1")
     = Some (Some "Unexpected error: cannot unpack non-iterable coroutine object")
  /\ (result_of <$> job_at run.2 "job-1") = Some (None, None, None)
  /\ (external_job_id <$> job_at run.2 "job-1") = Some (Some "ext-1")
  /\ (retry_count <$> job_at run.2 "job-1") = Some 0
  /\ bool_decide ("storage/media/job-1.png" ∈ files run.2) = false
  /\ bool_decide ("storage/metadata/job-1.json" ∈ files run.2) = true.
Proof. vm_compute. repeat split. Qed.

(** ** The status of the job is not read *)





(** ** Cancellation *)






(** Cancelling a completed job is refused and changes nothing. *)
Example cancel_completed_job :
  cancel_job "job-1" (world_of completed_job)
  = (inl (HTTPException 400 "Cannot cancel job with status: completed"),
     world_of completed_job).
Proof. reflexivity. Qed.


(** ** One pass of the polling loop, answer by answer *)

Section PollOnce.

Variable env : Env.
Variable i : string.
Variable job : Job.
Variable w : World.

Let h := external_job_id job.
Let rank := count_calls is_get_prediction (calls w).

Lemma poll_once_processing p :
  get_prediction env rank h = inr p -> still_processing p ->
  poll_once env i job w = (inr Next, waited h w).
Proof.
  intros Hp Hs. unfold poll_once, try_except, bind, check_job_status, subscript_status.
  fold h rank. rewrite Hp, Hs. reflexivity.
Qed.

Lemma poll_once_without_output p :
  get_prediction env rank h = inr p -> succeeded_without_output p ->
  poll_once env i job w = (inr Next, log (Ev_get_prediction h) w).
Proof.
  intros Hp [Hs Ho]. unfold poll_once, try_except, bind, check_job_status, subscript_status.
  fold h rank. rewrite Hp, Hs. simpl. by destruct Ho as [-> | ->].
Qed.



End PollOnce.

Lemma poll_loop_next env i job (f : World -> World) n : forall m w,
  (forall k, (k < n)%nat ->
     poll_once env i job (Nat.iter k f w) = (inr Next, f (Nat.iter k f w))) ->
  poll_loop env (n + m) i job w = poll_loop env m i job (Nat.iter n f w).
Proof.
  induction n as [|n IH]; intros m w Hk; [done|].
  change (poll_loop env (S n + m) i job w)
    with (bind (poll_once env i job)
            (fun step => match step with
                         | Return r => ret (Some r)
                         | Next => poll_loop env (n + m) i job
                         end) w).
  unfold bind. pose proof (Hk O ltac:(lia)) as H0. simpl in H0. rewrite H0.
  rewrite IH.
  - by rewrite <- Nat.iter_succ_r.
  - intros k Hlt. rewrite <- Nat.iter_succ_r. apply Hk. lia.
Qed.

Lemma iter_frame (f : World -> World) n w :
  (forall w, jobs (f w) = jobs w /\ files (f w) = files w /\ writable (f w) = writable w) ->
  jobs (Nat.iter n f w) = jobs w /\ files (Nat.iter n f w) = files w
  /\ writable (Nat.iter n f w) = writable w.
Proof.
  intros Hf. induction n as [|n IH]; simpl; [done|].
  destruct (Hf (Nat.iter n f w)) as (-> & -> & ->). exact IH.
Qed.

Lemma iter_polls (f : World -> World) n w :
  (forall w, count_calls is_get_prediction (calls (f w))
             = S (count_calls is_get_prediction (calls w))) ->
  count_calls is_get_prediction (calls (Nat.iter n f w))
  = (n + count_calls is_get_prediction (calls w))%nat.
Proof.
  intros Hf. induction n as [|n IH]; simpl; [done|]. by rewrite Hf, IH.
Qed.

Lemma iter_waited_now hd n w : now (Nat.iter n (waited hd) w) = now w + 10 * Z.of_nat n.
Proof.
  induction n as [|n IH]; [simpl; lia|]. rewrite Nat.iter_succ. unfold waited at 1. simpl.
  rewrite IH. lia.
Qed.

(** ** The run, unfolded *)

Lemma on_exception_run i e w :
  on_exception i e w = (inl e, (update_job i (unexpected_error e (now w)) w).2).
Proof. reflexivity. Qed.

Lemma task_run env r i w j :
  job_at w i = Some j ->
  process_media_generation env r i w
  = match generate_and_poll env i
            (set_updated_at (now w) (fold_left setattr (first_update r (now w)) j))
            (update_job i (first_update r (now w)) w).2 with
    | (inr res, w2) => (inr res, w2)
    | (inl e, w2) => on_exception i e w2
    end.
Proof.
  intros Hj. pose proof (update_job_found w i (first_update r (now w)) j Hj) as E.
  unfold process_media_generation, try_except, attempt, bind, get_job_by_id, utcnow.
  unfold job_at in Hj. rewrite Hj. unfold first_update in *. rewrite E. simpl.
  by destruct (generate_and_poll env i _ _) as [[e|res] w2].
Qed.

Lemma waited_frame hd w :
  jobs (waited hd w) = jobs w /\ files (waited hd w) = files w
  /\ writable (waited hd w) = writable w.
Proof. done. Qed.

Lemma job_at_iter (f : World -> World) n w i :
  (forall w, jobs (f w) = jobs w /\ files (f w) = files w /\ writable (f w) = writable w) ->
  job_at (Nat.iter n f w) i = job_at w i.
Proof. intros Hf. unfold job_at. by destruct (iter_frame f n w Hf) as (-> & _). Qed.

Lemma poll_loop_all_processing env i job n w :
  always_processing env ->
  poll_loop env n i job w = (inr None, Nat.iter n (waited (external_job_id job)) w).
Proof.
  intros Hall. rewrite <- (Nat.add_0_r n) at 1.
  rewrite (poll_loop_next env i job (waited (external_job_id job))); [done|].
  intros k _. destruct (Hall (count_calls is_get_prediction
                               (calls (Nat.iter k (waited (external_job_id job)) w)))
                          (external_job_id job)) as (p & Hp & Hs).
  by apply (poll_once_processing env i job _ p).
Qed.

Lemma polling_times_out env i job w :
  always_processing env ->
  (finished <- poll_loop env max_attempts i job ;;
   match finished with
   | Some r => ret r
   | None =>
       t <- utcnow ;;
       update_job i (timed_out t) ;;;
       ret (Result_failed (Some "Job timed out"))
   end) w
  = match update_job i (timed_out (now w + 300))
            (Nat.iter max_attempts (waited (external_job_id job)) w) with
    | (inl e, w') => (inl e, w')
    | (inr _, w') => (inr (Result_failed (Some "Job timed out")), w')
    end.
Proof.
  intros Hall. unfold bind at 1. rewrite (poll_loop_all_processing env i job _ w Hall).
  unfold bind, utcnow. rewrite iter_waited_now. reflexivity.
Qed.

(** ** The start phase, outcome by outcome *)

Section StartGeneration.

Variable env : Env.
Variable i : string.
Variable job : Job.
Variable w : World.
Variable kwargs : pydict.

Hypothesis Hparams : params_ok (parse_parameters env job) kwargs.

Let input := build_input (prompt job) kwargs.
Let rank := count_calls is_create_prediction (calls w).
Let submitted := log (Ev_create_prediction (model_name job) input) w.

Lemma call_generate_image_run :
  call_generate_image env (prompt job) (model_name job) (parse_parameters env job) w
  = (create_prediction env rank (model_name job) input, submitted).
Proof.
  destruct Hparams as [-> Hres]. unfold call_generate_image. by rewrite Hres.
Qed.


Lemma start_generation_succeeds hd j0 :
  job_at w i = Some j0 ->
  create_prediction env rank (model_name job) input = inr hd ->
  writable w = true ->
  start_generation env i job w
  = (inr (setattr job (Set_external_job_id hd)),
     with_files ({[ _generate_metadata_path i ]} ∪ files w)
       (log (Ev_save_metadata i
               (build_metadata env (setattr job (Set_external_job_id hd)) hd
                  (parse_parameters env job)))
          (update_job i [Set_external_job_id hd] submitted).2)).
Proof.
  intros Hj He Hw. unfold start_generation, try_except. unfold bind at 1.
  rewrite call_generate_image_run, He. unfold bind at 1.
  rewrite (update_job_found submitted i _ j0 Hj).
  unfold save_metadata, run_until_complete, save_metadata_body, as_StorageError,
    try_except, write_file, bind, modify, ret. simpl. by rewrite Hw.
Qed.

End StartGeneration.

(** ** The polling loop runs out *)

Lemma count_polls_waited hd w :
  count_calls is_get_prediction (calls (waited hd w))
  = S (count_calls is_get_prediction (calls w)).
Proof. done. Qed.

Lemma job_at_after_waiting (job : Job) w i j0 n : job_at w i = Some j0 ->
  job_at (Nat.iter n (waited (external_job_id job)) w) i = Some j0.
Proof. intros Hj. rewrite job_at_iter; [done|]. apply waited_frame. Qed.

Lemma polls_after_waiting (job : Job) w n :
  count_calls is_get_prediction (calls (Nat.iter n (waited (external_job_id job)) w))
               = (n + count_calls is_get_prediction (calls w))%nat.
Proof. apply iter_polls. apply count_polls_waited. Qed.

Lemma time_out_recorded i t w30 j0 : job_at w30 i = Some j0 ->
  exists w', match update_job i (timed_out t) w30 with
    | (inl e, w') => (inl e, w')
    | (inr _, w') => (inr (Result_failed (Some "Job timed out")), w')
    end = (inr (Result_failed (Some "Job timed out")), w')
   /\ calls w' = calls w30
   /\ row_has i (fun j' => status j' = FAILED
                           /\ error_message j' = Some "Job timed out after 5 minutes") w'.
Proof.
  intros Hj30.
  pose proof (job_at_update w30 i (timed_out t) j0 Hj30) as Hrow.
  rewrite (update_job_found w30 i _ j0 Hj30) in Hrow |- *.
  eexists. split; [reflexivity|]. split; [reflexivity|].
  eexists. split; [exact Hrow|done].
Qed.

Lemma polling_times_out_row env i job w j0 :
  always_processing env ->
  job_at w i = Some j0 ->
  exists w',
    (finished <- poll_loop env max_attempts i job ;;
     match finished with
     | Some r => ret r
     | None =>
         t <- utcnow ;;
         update_job i (timed_out t) ;;;
         ret (Result_failed (Some "Job timed out"))
     end) w = (inr (Result_failed (Some "Job timed out")), w')
    /\ count_calls is_get_prediction (calls w')
       = (max_attempts + count_calls is_get_prediction (calls w))%nat
    /\ row_has i (fun j' => status j' = FAILED
                           /\ error_message j' = Some "Job timed out after 5 minutes") w'.
Proof.
  intros Hall Hj. rewrite (polling_times_out env i job w Hall).
  destruct (time_out_recorded i (now w + 300) _ j0
              (job_at_after_waiting job w i j0 max_attempts Hj)) as (w' & E & Hc & Hrow).
  exists w'. split; [exact E|]. split; [|exact Hrow].
  rewrite Hc. apply polls_after_waiting.
Qed.

Lemma generate_and_poll_times_out env i job w j0 :
  always_processing env ->
  job_at w i = Some j0 ->
  truthy (external_job_id job) = true \/ submission_accepted env w job ->
  exists w',
    generate_and_poll env i job w = (inr (Result_failed (Some "Job timed out")), w')
    /\ count_calls is_get_prediction (calls w')
       = (max_attempts + count_calls is_get_prediction (calls w))%nat
    /\ row_has i timed_out_row w'.
Proof.
  intros Hall Hj Hreach. unfold generate_and_poll. unfold bind at 1.
  destruct (negb (truthy (external_job_id job))) eqn:Hneg.
  - destruct Hreach as [Hh | (Hw & kwargs & hd & Hp & Hc)].
    { rewrite Hh in Hneg. discriminate. }
    rewrite (start_generation_succeeds env i job w kwargs Hp hd j0 Hj Hc Hw).
    match goal with |- context [bind _ _ ?w2] =>
      destruct (polling_times_out_row env i (setattr job (Set_external_job_id hd)) w2
                  (set_updated_at (now w)
                     (fold_left setattr [Set_external_job_id hd] j0)) Hall)
        as (w' & E & Hn & Hrow) end.
    { apply (job_at_update (log (Ev_create_prediction (model_name job)
                (build_input (prompt job) kwargs)) w) i [Set_external_job_id hd] j0 Hj). }
    exists w'. split; [exact E|]. split; [|exact Hrow]. rewrite Hn.
    destruct (update_job_frame (log (Ev_create_prediction (model_name job)
                 (build_input (prompt job) kwargs)) w) i [Set_external_job_id hd])
      as (_ & _ & _ & Hc2).
    cbn [calls with_files log]. unfold with_files, log in *. cbn [calls] in *.
    rewrite Hc2. reflexivity.
  - unfold ret at 1.
    destruct (polling_times_out_row env i job w j0 Hall Hj) as (w' & E & Hn & Hrow).
    exists w'. auto.
Qed.

(** C6.  When the service answers every poll with "processing", a run that
    reaches the polling loop (the row has an external id, or the submission
    succeeds) polls exactly [max_attempts] = 30 times, then sets the job to
    Failed with the message "Job timed out after 5 minutes" and returns the
    failed result "Job timed out". *)
Theorem polling_gives_up_after_max_attempts env r i w j :
  job_at w i = Some j ->
  always_processing env ->
  truthy (external_job_id j) = true \/ submission_accepted env w j ->
  (process_media_generation env r i w).1 = inr (Result_failed (Some "Job timed out"))
  /\ count_calls is_get_prediction (calls (process_media_generation env r i w).2)
     = (max_attempts + count_calls is_get_prediction (calls w))%nat
  /\ row_has i timed_out_row (process_media_generation env r i w).2.
Proof.
  intros Hj Hall Hreach. rewrite (task_run env r i w j Hj).
  destruct (update_job_frame w i (first_update r (now w))) as (_ & Hw1 & _ & Hc1).
  pose proof (job_at_update w i (first_update r (now w)) j Hj) as Hj1.
  destruct (generate_and_poll_times_out env i
              (set_updated_at (now w) (fold_left setattr (first_update r (now w)) j))
              (update_job i (first_update r (now w)) w).2 _ Hall Hj1)
    as (w' & E & Hn & Hrow).
  { destruct Hreach as [Hh | (Hw & kwargs & hd & Hp & Hc)]; [by left|right].
    split; [by rewrite Hw1|]. exists kwargs, hd. split; [exact Hp|].
    rewrite Hc1. exact Hc. }
  rewrite E. cbn [fst snd]. rewrite Hn, Hc1. auto.
Qed.

Lemma polling_gives_up_after_max_attempts_witness :
  let env := sample_env (inr "ext-1") (fun _ => inr pred_processing) in
  let w := world_of pending_job in
  (process_media_generation env 0 "job-1" w).1 = inr (Result_failed (Some "Job timed out"))
  /\ count_calls is_get_prediction (calls (process_media_generation env 0 "job-1" w).2)
     = (max_attempts + count_calls is_get_prediction (calls w))%nat
  /\ row_has "job-1" timed_out_row (process_media_generation env 0 "job-1" w).2.
Proof.
  apply (polling_gives_up_after_max_attempts
           (sample_env (inr "ext-1") (fun _ => inr pred_processing)) 0 "job-1"
           (world_of pending_job) pending_job).
  - reflexivity.
  - intros n hd. exists pred_processing. split; reflexivity.
  - right. split; [reflexivity|]. exists [], "ext-1". repeat split; reflexivity.
Defined.

(** ** Errors of the client *)


Lemma parse_parameters_same env j j' :
  parameters j' = parameters j -> parse_parameters env j' = parse_parameters env j.
Proof. unfold parse_parameters. by intros ->. Qed.



Lemma first_update_same_request r t t' j :
  same_request j (set_updated_at t' (fold_left setattr (first_update r t) j)).
Proof. done. Qed.



(** What [on_exception] leaves on a row that exists. *)
Lemma on_exception_recorded i e w j :
  job_at w i = Some j ->
  on_exception i e w = (inl e, (update_job i (unexpected_error e (now w)) w).2)
  /\ row_has i (recorded_unexpected e j) (update_job i (unexpected_error e (now w)) w).2.
Proof.
  intros Hj. split; [apply on_exception_run|].
  eexists. split; [by apply job_at_update|]. repeat split.
Qed.

Lemma recorded_unexpected_from e j j2 j3 :
  same_request j j2 -> recorded_unexpected e j2 j3 -> recorded_unexpected e j j3.
Proof.
  intros H12 (Hs & Hm & H23). repeat split; try done.
  all: destruct H12 as (? & ? & ? & ?), H23 as (? & ? & ? & ?); congruence.
Qed.











(** ** The external id, once stored *)

(** The external id that a run stores when its submission is accepted is on
    the row at the end of the run, whatever the polling does. *)
Lemma stored_handle_survives_the_run env r i w j kwargs hd :
  job_at w i = Some j ->
  truthy (external_job_id j) = false ->
  params_ok (parse_parameters env j) kwargs ->
  create_prediction env (count_calls is_create_prediction (calls w))
    (model_name j) (build_input (prompt j) kwargs) = inr hd ->
  writable w = true ->
  row_has i (fun j' => external_job_id j' = Some hd) (process_media_generation env r i w).2.
Proof.
  intros Hj Hh Hp Hc Hw. rewrite (task_run env r i w j Hj).
  destruct (update_job_frame w i (first_update r (now w))) as (_ & Hw1 & _ & Hc1).
  pose proof (job_at_update w i (first_update r (now w)) j Hj) as Hj1.
  pose proof (first_update_same_request r (now w) (now w) j) as Hsame1.
  revert Hj1 Hsame1.
  generalize (set_updated_at (now w) (fold_left setattr (first_update r (now w)) j)).
  intros j1 Hj1 (Hq1 & Hq2 & Hq3 & Hq4).
  assert (Hp1 : params_ok (parse_parameters env j1) kwargs).
  { by rewrite (parse_parameters_same env j j1 Hq1). }
  set (P := row_has i (fun j' : Job => external_job_id j' = Some hd)).
  assert (Hupd : forall us w', writes not_external_job_id us = true ->
                               P w' -> P (update_job i us w').2).
  { intros us w'. apply row_has_update; [|done]. intros j0 u Hu <-. by destruct u. }
  unfold generate_and_poll. rewrite Hq4, Hh. simpl negb. cbv iota. unfold bind at 1.
  rewrite (start_generation_succeeds env i j1 _ kwargs Hp1 hd j1 Hj1);
    [|by rewrite Hc1, Hq2, Hq3|by rewrite Hw1].
  match goal with |- context [bind _ _ ?w2] =>
    assert (H2 : P w2) end.
  { eexists. split.
    - apply (job_at_update
        (log (Ev_create_prediction (model_name j1) (build_input (prompt j1) kwargs))
           (update_job i (first_update r (now w)) w).2) i [Set_external_job_id hd] j1 Hj1).
    - reflexivity. }
  pose proof (polling_preserves env i P all_kinds not_external_job_id
                ltac:(done) ltac:(done) Hupd ltac:(done) ltac:(done)
                (setattr j1 (Set_external_job_id hd)) _ H2) as H3.
  match goal with |- P (match ?x with _ => _ end).2 =>
    destruct x as [[e|res] w3] end; simpl in H3; [|done].
  by apply (on_exception_preserves i P not_external_job_id Hupd).
Qed.

(** ** A success without output *)

Lemma polled_frame hd w :
  jobs (log (Ev_get_prediction hd) w) = jobs w
  /\ files (log (Ev_get_prediction hd) w) = files w
  /\ writable (log (Ev_get_prediction hd) w) = writable w.
Proof. done. Qed.

Lemma now_after_polling hd n w : now (Nat.iter n (log (Ev_get_prediction hd)) w) = now w.
Proof. induction n as [|n IH]; [done|]. rewrite Nat.iter_succ. exact IH. Qed.

Lemma poll_loop_all_without_output env i job n w :
  always_without_output env ->
  poll_loop env n i job w
  = (inr None, Nat.iter n (log (Ev_get_prediction (external_job_id job))) w).
Proof.
  intros Hall. rewrite <- (Nat.add_0_r n) at 1.
  rewrite (poll_loop_next env i job (log (Ev_get_prediction (external_job_id job))));
    [done|].
  intros k _.
  destruct (Hall (count_calls is_get_prediction
                    (calls (Nat.iter k (log (Ev_get_prediction (external_job_id job))) w)))
              (external_job_id job)) as (p & Hp & Hs).
  by apply (poll_once_without_output env i job _ p).
Qed.

Lemma time_out_keeps_clock i t wn :
  now (update_job i (timed_out t) wn).2 = now wn.
Proof. apply update_job_frame. Qed.

Lemma generate_and_poll_without_output env i job w j0 :
  always_without_output env ->
  truthy (external_job_id job) = true ->
  job_at w i = Some j0 ->
  exists w',
    generate_and_poll env i job w = (inr (Result_failed (Some "Job timed out")), w')
    /\ count_calls is_get_prediction (calls w')
       = (max_attempts + count_calls is_get_prediction (calls w))%nat
    /\ row_has i timed_out_row w'
    /\ now w' = now w.
Proof.
  intros Hall Hh Hj. unfold generate_and_poll. rewrite Hh. simpl negb. cbv iota.
  unfold bind at 1. unfold ret at 1. unfold bind at 1.
  rewrite (poll_loop_all_without_output env i job max_attempts w Hall).
  unfold bind at 1. unfold utcnow. rewrite now_after_polling.
  assert (Hjn : job_at (Nat.iter max_attempts
                          (log (Ev_get_prediction (external_job_id job))) w) i = Some j0).
  { rewrite job_at_iter; [done|]. apply polled_frame. }
  pose proof (time_out_keeps_clock i (now w)
                (Nat.iter max_attempts (log (Ev_get_prediction (external_job_id job))) w))
    as Hnow.
  destruct (time_out_recorded i (now w) _ j0 Hjn) as (w' & E & Hc & Hrow).
  exists w'. split; [|split; [|split; [exact Hrow|]]].
  - unfold bind, ret. exact E.
  - rewrite Hc. apply iter_polls. done.
  - revert E Hnow. unfold timed_out.
    destruct (update_job i _ _) as [[e|a] w2]; [discriminate|].
    intros [= <-] Hnow. cbn [snd] in Hnow. rewrite Hnow. apply now_after_polling.
Qed.

(** C7, what the code does.  A poll answer "succeeded" without output matches
    no branch of the loop body: the [if] that looks for an output has no
    [else], so the loop goes to its next pass at once.  When the service keeps
    answering so, the run polls [max_attempts] = 30 times without waiting (the
    clock has not moved at the end) and records "Job timed out after 5
    minutes": the poll is repeated, and the message says nothing of a missing
    output. *)
Theorem empty_output_is_polled_again env r i w j :
  job_at w i = Some j ->
  truthy (external_job_id j) = true ->
  always_without_output env ->
  (process_media_generation env r i w).1 = inr (Result_failed (Some "Job timed out"))
  /\ count_calls is_get_prediction (calls (process_media_generation env r i w).2)
     = (max_attempts + count_calls is_get_prediction (calls w))%nat
  /\ row_has i timed_out_row (process_media_generation env r i w).2
  /\ now (process_media_generation env r i w).2 = now w.
Proof.
  intros Hj Hh Hall. rewrite (task_run env r i w j Hj).
  destruct (update_job_frame w i (first_update r (now w))) as (_ & _ & Hn1 & Hc1).
  pose proof (job_at_update w i (first_update r (now w)) j Hj) as Hj1.
  destruct (generate_and_poll_without_output env i
              (set_updated_at (now w) (fold_left setattr (first_update r (now w)) j))
              (update_job i (first_update r (now w)) w).2 _ Hall Hh Hj1)
    as (w' & E & Hn & Hrow & Hnow).
  rewrite E. cbn [fst snd]. rewrite Hn, Hc1, Hnow, Hn1. auto.
Qed.

Lemma empty_output_is_polled_again_witness :
  let env := sample_env (inr "ext-2") (fun _ => inr pred_succeeded_empty) in
  let w := world_of submitted_job in
  (process_media_generation env 0 "job-1" w).1 = inr (Result_failed (Some "Job timed out"))
  /\ count_calls is_get_prediction (calls (process_media_generation env 0 "job-1" w).2)
     = (max_attempts + count_calls is_get_prediction (calls w))%nat
  /\ row_has "job-1" timed_out_row (process_media_generation env 0 "job-1" w).2
  /\ now (process_media_generation env 0 "job-1" w).2 = now w.
Proof.
  apply (empty_output_is_polled_again
           (sample_env (inr "ext-2") (fun _ => inr pred_succeeded_empty)) 0 "job-1"
           (world_of submitted_job) submitted_job).
  - reflexivity.
  - reflexivity.
  - intros n hd. exists pred_succeeded_empty. split; [reflexivity|].
    split; [reflexivity|by right].
Defined.

(** The run on the failing input of C7, evaluated. *)
Example empty_output_run :
  let env := sample_env (inr "ext-2") (fun _ => inr pred_succeeded_empty) in
  let run := process_media_generation env 0 "job-1" (world_of submitted_job) in
  run.1 = inr (Result_failed (Some "Job timed out"))
  /\ length (calls run.2) = 30%nat
  /\ count_calls is_get_prediction (calls run.2) = 30%nat
  /\ (status <$> job_at run.2 "job-1") = Some FAILED
  /\ (error_message <$> job_at run.2 "job-1") = Some (Some "Job timed out after 5 minutes")
  /\ now run.2 = now (world_of submitted_job).
Proof. vm_compute. repeat split. Qed.

(** ** Error message, result and parameters *)

(** No run writes the result columns of the row. *)
Lemma task_keeps_result env r i w j :
  job_at w i = Some j ->
  row_has i (fun j' => result_of j' = result_of j) (process_media_generation env r i w).2.
Proof.
  intros Hj.
  apply (task_establishes env i _ all_kinds not_result) with (j := j); try done.
  - intros us w'. apply row_has_update; [|done]. intros j0 u Hu <-. by destruct u.
  - eexists. split; [by apply job_at_update|done].
Qed.

Lemma has_result_of j j' : result_of j' = result_of j -> has_result j' = has_result j.
Proof. unfold result_of, has_result. by intros [= -> -> ->]. Qed.

(** C4, as the code has it.  A run writes [error_message] only in the updates
    that set the status to Failed, and the result columns only in the update
    that sets it to Completed; it clears neither.  So a job that a run leaves
    Failed has an error message that is not empty, and a message or a result
    that the row held before the run is still there after it. *)
Theorem error_and_result_are_kept env r i w j :
  job_at w i = Some j ->
  exists j', job_at (process_media_generation env r i w).2 i = Some j'
    /\ (status j' = COMPLETED \/ (status j' = FAILED /\ has_error j' = true))
    /\ (result_of j' = result_of j \/ status j' = COMPLETED)
    /\ (error_message j' = error_message j \/ status j' = FAILED)
    /\ (has_result j' = true \/ has_result j = false)
    /\ (error_message j' <> None \/ error_message j = None).
Proof.
  intros Hj.
  destruct (task_leaves_failed env r i w j Hj) as (j1 & Hj1 & Hs & He).
  destruct (task_keeps_result env r i w j Hj) as (j2 & Hj2 & Hr).
  rewrite Hj1 in Hj2. injection Hj2 as <-. exists j1. split; [done|].
  split; [by right|]. split; [by left|]. split; [by right|]. split.
  - rewrite (has_result_of j j1 Hr). by destruct (has_result j); [left|right].
  - left. unfold has_error in He. by destruct (error_message j1).
Qed.

Lemma error_and_result_are_kept_witness :
  let env := sample_env (inr "ext-2") (fun _ => inr pred_failed) in
  let w := world_of completed_job in
  exists j', job_at (process_media_generation env 1 "job-1" w).2 "job-1" = Some j'
    /\ (status j' = COMPLETED \/ (status j' = FAILED /\ has_error j' = true))
    /\ (result_of j' = result_of completed_job \/ status j' = COMPLETED)
    /\ (error_message j' = error_message completed_job \/ status j' = FAILED)
    /\ (has_result j' = true \/ has_result completed_job = false)
    /\ (error_message j' <> None \/ error_message completed_job = None).
Proof.
  apply (error_and_result_are_kept _ 1 "job-1" (world_of completed_job) completed_job).
  reflexivity.
Defined.

(** C4 fails as stated: a job that is Completed, with its result and without
    error message, is run again (a second delivery of the task) and the service
    now reports a failure.  The job ends Failed holding both an error message
    and the result of the earlier completion. *)
Lemma failed_job_with_result :
  let env := sample_env (inr "ext-2") (fun _ => inr pred_failed) in
  let w := world_of completed_job in
  let after := job_at (process_media_generation env 1 "job-1" w).2 "job-1" in
  status completed_job = COMPLETED
  /\ has_error completed_job = false /\ has_result completed_job = true
  /\ (status <$> after) = Some FAILED
  /\ (has_error <$> after) = Some true
  /\ (has_result <$> after) = Some true
  /\ (error_message <$> after) = Some (Some "Generation failed: out of memory").
Proof. vm_compute. repeat split. Qed.





(** C10 fails as stated: the parameters of the job are the text "width=512",
    which [json.loads] rejects; the client accepts the submission and the
    service reports a success with its output.  The run does fail, and an
    error is recorded: it raises the [TypeError] of the unpacking of what
    [save_file] returned, and leaves the job Failed with that message. *)
Lemma malformed_parameters_run_fails :
  let env := sample_env (inr "ext-1") (fun _ => inr pred_succeeded) in
  let run := process_media_generation env 0 "job-1" (world_of malformed_job) in
  parameters malformed_job = Some "width=512"
  /\ json_loads env "width=512" = None
  /\ run.1 = inl cannot_unpack
  /\ (status <$> job_at run.2 "job-1") = Some FAILED
  /\ (error_message <$> job_at run.2 "job-1")
     = Some (Some "Unexpected error: cannot unpack non-iterable coroutine object").
Proof. vm_compute. repeat split. Qed.

(** The run on the sample job with malformed parameters, evaluated: the
    payload sent to the client and the metadata saved carry no parameter. *)
Example malformed_parameters_run :
  let env := sample_env (inr "ext-1") (fun _ => inr pred_failed) in
  let run := process_media_generation env 0 "job-1" (world_of malformed_job) in
  rev (calls run.2)
  = [ Ev_create_prediction "stable-diffusion"
        [ ("prompt", PyStr "a cat"); ("width", PyInt 1024); ("height", PyInt 1024);
          ("num_outputs", PyInt 1); ("num_inference_steps", PyInt 4);
          ("guidance_scale", PyFloat (7 # 2)) ];
      Ev_save_metadata "job-1"
        [ ("prompt", PyStr "a cat"); ("model_name", PyStr "stable-diffusion");
          ("external_job_id", PyStr "ext-1");
          ("created_at", PyStr "2024-01-01T00:00:00") ];
      Ev_get_prediction (Some "ext-1") ]
  /\ (error_message <$> job_at run.2 "job-1")
     = Some (Some "Generation failed: out of memory").
Proof. vm_compute. split; reflexivity. Qed.

(** ** The retention sweep *)

(** The body of [delete_file], when it runs: a missing file is reported by
    [False] and is no error; a file that is there is removed. *)
Lemma delete_file_body_missing job_id w :
  _generate_file_path job_id "png" ∉ files w ->
  delete_file_body job_id "png" w = (inr false, w).
Proof.
  intros Hnot. unfold delete_file_body, as_StorageError, try_except, bind, path_exists.
  by rewrite bool_decide_eq_false_2.
Qed.

Lemma delete_file_body_present job_id w :
  _generate_file_path job_id "png" ∈ files w -> writable w = true ->
  delete_file_body job_id "png" w
  = (inr true, with_files (files w ∖ {[ _generate_file_path job_id "png" ]}) w).
Proof.
  intros Hin Hw. unfold delete_file_body, as_StorageError, try_except, bind, path_exists,
    os_remove. rewrite bool_decide_eq_true_2; [|done]. by rewrite Hw.
Qed.

(** One pass of the loop of the sweep: the call of [delete_file] is logged, its
    coroutine is dropped, and the row loses its file references. *)
Lemma sweep_step job rest n w :
  sweep (job :: rest) n w
  = match update_job (id job) [Set_file_path None; Set_result_url None]
            (log (Ev_delete_file (id job)) w) with
    | (inl e, w') => if is_StorageError e then sweep rest n w' else (inl e, w')
    | (inr _, w') => sweep rest (n + 1) w'
    end.
Proof.
  simpl. unfold bind at 1. unfold try_except. unfold bind at 1.
  unfold delete_file, bind, modify, ret, coroutine_truth.
  destruct (update_job (id job) _ _) as [[e|a] w']; [|done].
  by destruct (is_StorageError e).
Qed.

Lemma sweep_keeps_files old_jobs : forall n w, files (sweep old_jobs n w).2 = files w.
Proof.
  induction old_jobs as [|job rest IH]; intros n w; [done|].
  rewrite sweep_step.
  destruct (update_job_frame (log (Ev_delete_file (id job)) w) (id job)
              [Set_file_path None; Set_result_url None]) as (Hf & _).
  destruct (update_job (id job) _ _) as [[e|a] w']; simpl in Hf.
  - destruct (is_StorageError e); [|done]. by rewrite IH.
  - by rewrite IH.
Qed.

(** The sweep never removes a file from the disk. *)
Lemma cleanup_keeps_files days_old w : files (cleanup_old_files days_old w).2 = files w.
Proof. unfold cleanup_old_files, bind, utcnow, get_world. apply sweep_keeps_files. Qed.

(** C9 on the code.  The sweep runs on a job completed ten days ago whose file
    is on disk.  The first sweep reports one deleted file and clears
    [file_path] and [result_url], the status staying Completed, but the file is
    still on disk: [delete_file] is an [async def], the sweep calls it without
    running the coroutine it returns, and takes that coroutine for [True].
    The second sweep selects nothing and reports zero. *)
Theorem sweep_leaves_the_file :
  let first := cleanup_old_files 7 aged_world in
  let second := cleanup_old_files 7 first.2 in
  "storage/media/job-1.png" ∈ files aged_world
  /\ first.1 = inr 1
  /\ job_at first.2 "job-1"
     = Some (set_updated_at (now aged_world)
               (fold_left setattr [Set_file_path None; Set_result_url None] completed_job))
  /\ (status <$> job_at first.2 "job-1") = Some COMPLETED
  /\ calls first.2 = [Ev_delete_file "job-1"]
  /\ "storage/media/job-1.png" ∈ files first.2
  /\ second.1 = inr 0
  /\ calls second.2 = calls first.2
  /\ "storage/media/job-1.png" ∈ files second.2.
Proof.
  cbv zeta. rewrite !cleanup_keeps_files.
  assert (Hin : "storage/media/job-1.png" ∈ files aged_world).
  { unfold aged_world. cbn [files]. by apply elem_of_singleton_2. }
  repeat split; try exact Hin; reflexivity.
Qed.

(** What the body of [delete_file] would do on that disk, were it run: it
    removes the file; run again, it finds none and answers [False]. *)
Example delete_file_body_twice :
  let first := delete_file_body "job-1" "png" aged_world in
  first.1 = inr true
  /\ ("storage/media/job-1.png" ∉ files first.2)
  /\ (delete_file_body "job-1" "png" first.2).1 = inr false.
Proof.
  cbv zeta.
  assert (Hin : "storage/media/job-1.png" ∈ files aged_world).
  { unfold aged_world. cbn [files]. by apply elem_of_singleton_2. }
  assert (Hout : "storage/media/job-1.png"
                 ∉ files aged_world ∖ {[ "storage/media/job-1.png" ]}).
  { intros [_ Hnot]%elem_of_difference. apply Hnot. by apply elem_of_singleton_2. }
  rewrite (delete_file_body_present "job-1" aged_world); [|exact Hin|done].
  split; [done|]. split; [exact Hout|].
  by rewrite delete_file_body_missing.
Qed.

(** * The rest of the service: the job table, the storage service, the endpoints
    and the client *)

(** ** Reasoning from one property to another *)

Section Establishes.

Context {P R Q : World -> Prop}.



End Establishes.


(** ** The job table, one row at a time *)

Lemma store_job_ids rows i j' :
  id j' = i -> map id (store_job rows i j') = map id rows.
Proof.
  intros Hid. induction rows as [|r rows IH]; simpl; [done|].
  destruct (String.eqb (id r) i) eqn:E; simpl.
  - apply String.eqb_eq in E. by rewrite Hid, E.
  - by rewrite IH.
Qed.

Lemma update_job_ids i us w : map id (jobs (update_job i us w).2) = map id (jobs w).
Proof.
  unfold update_job. destruct (find_job (jobs w) i) as [j|] eqn:Hj; [|done].
  simpl. apply store_job_ids. simpl. rewrite id_fold_setattr. by apply find_job_id in Hj.
Qed.

Lemma update_job_other i i' us w :
  i' <> i -> job_at (update_job i us w).2 i' = job_at w i'.
Proof.
  intros Hne. unfold update_job, job_at.
  destruct (find_job (jobs w) i) as [j|] eqn:Hj; [|done].
  simpl. apply find_store_job_ne; [done|].
  simpl. rewrite id_fold_setattr. by apply find_job_id in Hj.
Qed.

(** X1.  [update_job] and [get_job_by_id] agree.  When the table has a row for
    the id, [update_job] returns a row with that id, stamped with the time of the
    update, and [get_job_by_id] then returns that very row; the rows of the
    other ids, the order of the table, the disk, the clock and the log of
    calls are as before. *)
Theorem update_job_then_get i us w j :
  job_at w i = Some j ->
  exists j' w',
    update_job i us w = (inr j', w')
    /\ get_job_by_id i w' = (inr j', w')
    /\ id j' = i
    /\ updated_at j' = Some (now w)
    /\ (forall i', i' <> i -> job_at w' i' = job_at w i')
    /\ map id (jobs w') = map id (jobs w)
    /\ files w' = files w /\ now w' = now w /\ calls w' = calls w.
Proof.
  intros Hj. pose proof (job_at_update w i us j Hj) as Hj'.
  pose proof (update_job_ids i us w) as Hids.
  pose proof (fun i' => update_job_other i i' us w) as Hother.
  destruct (update_job_frame w i us) as (Hf & _ & Hn & Hc).
  rewrite (update_job_found w i us j Hj) in *. cbn [snd] in *.
  eexists _, _. split; [reflexivity|].
  split; [unfold get_job_by_id; unfold job_at in Hj'; by rewrite Hj'|].
  split; [simpl; rewrite id_fold_setattr; by apply find_job_id in Hj|].
  split; [done|]. split; [exact Hother|]. done.
Qed.

Lemma update_job_then_get_witness :
  exists j' w',
    update_job "job-1" [Set_status FAILED; Set_error_message "boom"] (world_of pending_job)
      = (inr j', w')
    /\ get_job_by_id "job-1" w' = (inr j', w')
    /\ id j' = "job-1"
    /\ updated_at j' = Some (now (world_of pending_job))
    /\ (forall i', i' <> "job-1" -> job_at w' i' = job_at (world_of pending_job) i')
    /\ map id (jobs w') = map id (jobs (world_of pending_job))
    /\ files w' = files (world_of pending_job) /\ now w' = now (world_of pending_job)
    /\ calls w' = calls (world_of pending_job).
Proof.
  apply (update_job_then_get "job-1" [Set_status FAILED; Set_error_message "boom"]
           (world_of pending_job) pending_job).
  reflexivity.
Defined.

(** ** A run for an id that the table does not have *)

Lemma task_without_row env r i w :
  job_at w i = None ->
  process_media_generation env r i w = (inl (not_found i), w).
Proof.
  intros Hj. unfold job_at in Hj.
  unfold process_media_generation, try_except, attempt, bind, get_job_by_id.
  rewrite Hj. unfold on_exception, bind, suppress, utcnow, update_job. by rewrite Hj.
Qed.

(** X2.  A run for a job that the table does not have.  The id that the task
    receives is the text of a UUID, written as [str] writes it, and so are
    the ids of the table; no row has that id.  Then the task raises
    [ValueError "Job <id> not found"] and changes nothing: no collaborator is
    called, and the update that the handler of unexpected errors tries finds
    no row either and is passed over. *)
Theorem task_on_unknown_job env r i w :
  is_uuid_text i = true ->
  ids_are_uuid_texts w ->
  job_at w i = None ->
  process_media_generation env r i w
  = (inl (Exn ValueError ("Job " ++ i ++ " not found")), w).
Proof. intros _ _. apply task_without_row. Qed.

Lemma task_on_unknown_job_witness :
  process_media_generation (sample_env (inr "ext-1") (fun _ => inr pred_processing)) 0
    "00000000-0000-4000-8000-000000000000" (world_of uuid_job)
  = (inl (Exn ValueError ("Job " ++ "00000000-0000-4000-8000-000000000000" ++ " not found")),
     world_of uuid_job).
Proof.
  apply task_on_unknown_job.
  - reflexivity.
  - by repeat constructor.
  - reflexivity.
Defined.

(** ** What a run leaves alone *)



(** ** The cost of one run *)

Section Bounds.

Variable env : Env.
Variable i : string.
Variable n0 : nat.







End Bounds.


(** ** The answer that ends the polling *)

Lemma poll_once_succeeded env i job w p url urls data :
  get_prediction env (count_calls is_get_prediction (calls w)) (external_job_id job) = inr p ->
  pred_status p = Some "succeeded" ->
  pred_output p = Some (url :: urls) ->
  http_download env (count_calls is_download_result (calls w)) url = inr data ->
  poll_once env i job w
  = (inl cannot_unpack,
     log (Ev_save_file i data "png")
       (log (Ev_download_result url (prompt job))
          (log (Ev_get_prediction (external_job_id job)) w))).
Proof.
  intros Hp Hs Ho Hd.
  unfold poll_once, try_except, bind, check_job_status, subscript_status.
  rewrite Hp, Hs. simpl. rewrite Ho. unfold download_result. simpl.
  rewrite count_calls_log. simpl. by rewrite Hd.
Qed.

Lemma downloads_after_waiting hd n w :
  count_calls is_download_result (calls (Nat.iter n (waited hd) w))
  = count_calls is_download_result (calls w).
Proof. induction n as [|n IH]; [done|]. rewrite Nat.iter_succ. exact IH. Qed.

(** The loop up to the answer of rank [k], the answers before it being
    "processing". *)
Lemma poll_loop_until env i job n k w :
  (k < n)%nat ->
  (forall m, (m < k)%nat ->
     exists q, get_prediction env (m + count_calls is_get_prediction (calls w))
                 (external_job_id job) = inr q /\ still_processing q) ->
  poll_loop env n i job w
  = (step <- poll_once env i job ;;
     match step with
     | Return r => ret (Some r)
     | Next => poll_loop env (n - S k) i job
     end) (Nat.iter k (waited (external_job_id job)) w).
Proof.
  intros Hk Hproc. replace n with (k + S (n - S k))%nat at 1 by lia.
  rewrite (poll_loop_next env i job (waited (external_job_id job))); [done|].
  intros m Hm. destruct (Hproc m Hm) as (q & Hq & Hs).
  apply (poll_once_processing env i job _ q); [|done].
  by rewrite polls_after_waiting.
Qed.

Lemma generate_and_poll_resumed env i job w :
  truthy (external_job_id job) = true ->
  generate_and_poll env i job w
  = (finished <- poll_loop env max_attempts i job ;;
     match finished with
     | Some r => ret r
     | None =>
         t <- utcnow ;;
         update_job i (timed_out t) ;;;
         ret (Result_failed (Some "Job timed out"))
     end) w.
Proof. intros Hh. unfold generate_and_poll. by rewrite Hh. Qed.

(** A run that finds an external id on the row does not touch the disk. *)
Lemma resumed_run_keeps_files env r i w j :
  job_at w i = Some j -> truthy (external_job_id j) = true ->
  files (process_media_generation env r i w).2 = files w.
Proof.
  intros Hj Hh.
  apply (task_resumed_establishes env i (fun w' => files w' = files w) all_kinds all_fields)
    with (j := j); try done.
  - intros us w' _ <-. apply update_job_frame.
  - apply update_job_frame.
Qed.

(** The first update of a run, with what the proofs need of it. *)
Lemma first_update_run r i w j :
  job_at w i = Some j ->
  exists j1 w1,
    update_job i (first_update r (now w)) w = (inr j1, w1)
    /\ j1 = set_updated_at (now w) (fold_left setattr (first_update r (now w)) j)
    /\ job_at w1 i = Some j1 /\ same_request j j1
    /\ files w1 = files w /\ writable w1 = writable w /\ now w1 = now w
    /\ calls w1 = calls w.
Proof.
  intros Hj. pose proof (job_at_update w i (first_update r (now w)) j Hj) as Hj1.
  destruct (update_job_frame w i (first_update r (now w))) as (Hf & Hw & Hn & Hc).
  rewrite (update_job_found w i _ j Hj) in *. cbn [snd] in *.
  eexists _, _. split; [reflexivity|]. split; [reflexivity|]. by repeat split.
Qed.

(** X5.  The answer "succeeded" with an output does not complete the job.
    When a run that polls gets, after any number of answers "processing"
    within the cap, the answer "succeeded" with an output, and the download of
    the first output succeeds, it calls [save_file] with the image; that call
    is not awaited, so unpacking its result raises [TypeError].  The run
    raises it to the queue and leaves the job Failed with "Unexpected error:
    cannot unpack non-iterable coroutine object", its result columns and the
    disk as they were. *)
Theorem succeeded_answer_ends_in_type_error env r i w j k p url urls data :
  job_at w i = Some j ->
  poll_answers env w j k p ->
  pred_status p = Some "succeeded" ->
  pred_output p = Some (url :: urls) ->
  http_download env (count_calls is_download_result (calls w)) url = inr data ->
  let run := process_media_generation env r i w in
  run.1 = inl cannot_unpack
  /\ row_has i (recorded_unexpected cannot_unpack j) run.2
  /\ row_has i (fun j' => result_of j' = result_of j) run.2
  /\ files run.2 = files w
  /\ exists evs,
       calls run.2
       = Ev_save_file i data "png" :: Ev_download_result url (prompt j) :: evs.
Proof.
  intros Hj (Hh & Hk & Hproc & Hp) Hs Ho Hd. cbv zeta.
  split; [|split; [|split; [by apply task_keeps_result
                           |split; [by apply (resumed_run_keeps_files env r i w j)|]]]].
  all: rewrite (task_run env r i w j Hj).
  all: destruct (first_update_run r i w j Hj)
         as (j1 & w1 & E1 & <- & Hj1 & Hsame & _ & _ & _ & Hc1).
  all: pose proof Hsame as (Hq1 & Hq2 & Hq3 & Hq4).
  all: rewrite E1; cbn [snd].
  all: rewrite (generate_and_poll_resumed env i j1 w1) by (by rewrite Hq4).
  all: unfold bind at 1.
  all: rewrite (poll_loop_until env i j1 max_attempts k w1 Hk)
         by (intros m Hm; rewrite Hc1, Hq4; by apply Hproc).
  all: unfold bind at 1.
  all: rewrite (poll_once_succeeded env i j1 _ p url urls data)
         by (rewrite ?polls_after_waiting, ?downloads_after_waiting, ?Hc1, ?Hq4; done).
  all: pose proof (job_at_after_waiting j1 w1 i j1 k Hj1) as Hjk.
  all: destruct (on_exception_recorded i cannot_unpack
                   (log (Ev_save_file i data "png")
                      (log (Ev_download_result url (prompt j1))
                         (log (Ev_get_prediction (external_job_id j1))
                            (Nat.iter k (waited (external_job_id j1)) w1)))) j1 Hjk)
         as [E (j3 & Hj3 & Hrec)]; rewrite E.
  - done.
  - exists j3. split; [exact Hj3|]. by eapply recorded_unexpected_from.
  - cbn [snd]. destruct (update_job_frame
      (log (Ev_save_file i data "png")
         (log (Ev_download_result url (prompt j1))
            (log (Ev_get_prediction (external_job_id j1))
               (Nat.iter k (waited (external_job_id j1)) w1)))) i
      (unexpected_error cannot_unpack
         (now (log (Ev_save_file i data "png")
            (log (Ev_download_result url (prompt j1))
               (log (Ev_get_prediction (external_job_id j1))
                  (Nat.iter k (waited (external_job_id j1)) w1))))))) as (_ & _ & _ & ->).
    rewrite Hq2. eexists. reflexivity.
Qed.

Lemma succeeded_answer_ends_in_type_error_witness :
  let env := sample_env (inr "ext-2")
               (fun n => match n with
                         | O | 1%nat => inr pred_processing
                         | _ => inr pred_succeeded
                         end) in
  let w := world_of submitted_job in
  let data := [Byte.x89; Byte.x50; Byte.x4e; Byte.x47] in
  let run := process_media_generation env 0 "job-1" w in
  run.1 = inl cannot_unpack
  /\ row_has "job-1" (recorded_unexpected cannot_unpack submitted_job) run.2
  /\ row_has "job-1" (fun j' => result_of j' = result_of submitted_job) run.2
  /\ files run.2 = files w
  /\ exists evs,
       calls run.2
       = Ev_save_file "job-1" data "png"
         :: Ev_download_result "https://replicate.delivery/img.png" (prompt submitted_job)
         :: evs.
Proof.
  apply (succeeded_answer_ends_in_type_error _ 0 "job-1" (world_of submitted_job)
           submitted_job 2 pred_succeeded "https://replicate.delivery/img.png" []).
  - reflexivity.
  - split; [reflexivity|]. split; [unfold max_attempts; lia|]. split; [|reflexivity].
    intros m Hm. exists pred_processing. split; [|reflexivity].
    destruct m as [|[|m]]; [reflexivity|reflexivity|lia].
  - reflexivity.
  - reflexivity.
  - reflexivity.
Defined.



(** ** Parameters that cannot be passed on *)

Lemma call_generate_image_refuses env prompt model params w :
  (forall kwargs, ~ params_ok params kwargs) ->
  exists e, call_generate_image env prompt model params w = (inl e, w)
            /\ exn_class_of e = TypeError.
Proof.
  intros Hno. unfold call_generate_image.
  destruct params as [| | | | | |kwargs]; try (eexists; split; [reflexivity|done]).
  destruct (_ || _) eqn:Hk; [eexists; split; [reflexivity|done]|].
  exfalso. by apply (Hno kwargs).
Qed.

(** X7.  Parameters that are JSON but cannot be keyword arguments.  When the
    parameters of a job parse to something that is not an object (a list, a
    number), or to an object with a key that names an argument of
    [generate_image] again ("prompt", "model", "self"), the call of
    [generate_image] raises [TypeError] before the service is asked anything.
    A run that has to submit such a job raises that error to the queue, calls
    no collaborator, and leaves the job Failed with "Unexpected error: ...". *)
Theorem unusable_parameters_fail_the_run env r i w j :
  job_at w i = Some j ->
  truthy (external_job_id j) = false ->
  (forall kwargs, ~ params_ok (parse_parameters env j) kwargs) ->
  let run := process_media_generation env r i w in
  exists e,
    run.1 = inl e /\ exn_class_of e = TypeError
    /\ row_has i (recorded_unexpected e j) run.2
    /\ calls run.2 = calls w
    /\ files run.2 = files w.
Proof.
  intros Hj Hh Hno. cbv zeta.
  rewrite (task_run env r i w j Hj).
  destruct (update_job_frame w i (first_update r (now w))) as (Hf1 & _ & _ & Hc1).
  pose proof (job_at_update w i (first_update r (now w)) j Hj) as Hj1.
  pose proof (first_update_same_request r (now w) (now w) j) as Hsame1.
  revert Hj1 Hsame1.
  generalize (set_updated_at (now w) (fold_left setattr (first_update r (now w)) j)).
  intros j1 Hj1 Hsame1. pose proof Hsame1 as (Hq1 & Hq2 & Hq3 & Hq4).
  set (w1 := (update_job i (first_update r (now w)) w).2) in *.
  destruct (call_generate_image_refuses env (prompt j1) (model_name j1)
              (parse_parameters env j1) w1) as (e & Ecall & Hclass).
  { intros kwargs. rewrite (parse_parameters_same env j j1 Hq1). apply Hno. }
  assert (He : is_ReplicateAPIError e = false).
  { unfold is_ReplicateAPIError. by rewrite Hclass. }
  destruct (on_exception_recorded i e w1 j1 Hj1) as [E (j3 & Hj3 & Hrec)].
  assert (Hrun : match generate_and_poll env i j1 w1 with
                 | (inr res, w3) => (inr res, w3)
                 | (inl e, w3) => on_exception i e w3
                 end
                 = (inl e, (update_job i (unexpected_error e (now w1)) w1).2)).
  { unfold generate_and_poll. rewrite Hq4, Hh. simpl negb. cbv iota. unfold bind at 1.
    unfold start_generation, try_except. unfold bind at 1. rewrite Ecall, He. exact E. }
  rewrite Hrun. cbn [fst snd].
  destruct (update_job_frame w1 i (unexpected_error e (now w1))) as (Hf3 & _ & _ & Hc3).
  exists e. split; [done|]. split; [done|]. split; [|split].
  - exists j3. split; [exact Hj3|]. by eapply recorded_unexpected_from.
  - by rewrite Hc3.
  - by rewrite Hf3.
Qed.

Lemma unusable_parameters_fail_the_run_witness :
  let run := process_media_generation list_env 0 "job-1" (world_of malformed_job) in
  exists e,
    run.1 = inl e /\ exn_class_of e = TypeError
    /\ row_has "job-1" (recorded_unexpected e malformed_job) run.2
    /\ calls run.2 = calls (world_of malformed_job)
    /\ files run.2 = files (world_of malformed_job).
Proof.
  apply (unusable_parameters_fail_the_run list_env 0 "job-1" (world_of malformed_job)
           malformed_job).
  - reflexivity.
  - reflexivity.
  - intros kwargs [Hp _]. discriminate Hp.
Defined.

(** ** A disk that refuses the metadata *)




(** ** The retention sweep, on any table *)

(** With one row per id, a row of the table is the row that its id finds. *)
Lemma find_job_in rows j :
  NoDup (List.map id rows) -> In j rows -> find_job rows (id j) = Some j.
Proof.
  induction rows as [|r rows IH]; simpl; [done|].
  intros Hnd Hin. apply NoDup_cons in Hnd as [Hr Hnd].
  destruct Hin as [->|Hin]; [by rewrite String.eqb_refl|].
  destruct (String.eqb_spec (id r) (id j)) as [E|_]; [|by apply IH].
  exfalso. apply Hr. rewrite E. apply list_elem_of_In. by apply in_map.
Qed.

Lemma store_job_map rows i x :
  NoDup (List.map id rows) ->
  store_job rows i x = List.map (fun r => if String.eqb (id r) i then x else r) rows.
Proof.
  induction rows as [|r rows IH]; simpl; [done|].
  intros Hnd. apply NoDup_cons in Hnd as [Hr Hnd].
  destruct (String.eqb_spec (id r) i) as [E|_]; [|by rewrite IH].
  f_equal. rewrite <- (map_id rows) at 1. apply map_ext_in.
  intros r' Hr'. destruct (String.eqb_spec (id r') i) as [E'|_]; [|done].
  exfalso. apply Hr. rewrite E, <- E'. apply list_elem_of_In. by apply in_map.
Qed.

Lemma id_swept t j : id (swept t j) = id j.
Proof. done. Qed.

(** The loop of the sweep over rows of the table, one per id. *)
Lemma sweep_run old_jobs : forall n w,
  NoDup (List.map id (jobs w)) ->
  NoDup (List.map id old_jobs) ->
  (forall j, In j old_jobs -> In j (jobs w)) ->
  (sweep old_jobs n w).1 = inr (n + Z.of_nat (length old_jobs))
  /\ jobs (sweep old_jobs n w).2
     = swept_table (now w) (fun j => bool_decide (id j ∈ List.map id old_jobs)) (jobs w)
  /\ calls (sweep old_jobs n w).2 = (deletions old_jobs ++ calls w)%list
  /\ files (sweep old_jobs n w).2 = files w
  /\ writable (sweep old_jobs n w).2 = writable w
  /\ now (sweep old_jobs n w).2 = now w.
Proof.
  induction old_jobs as [|job rest IH]; intros n w Hnd Hnl Hin.
  - simpl. split; [f_equal; lia|]. split; [|done].
    unfold swept_table. rewrite <- (map_id (jobs w)) at 1. apply map_ext_in.
    by intros r _.
  - rewrite sweep_step. simpl in Hnl. apply NoDup_cons in Hnl as [Hjob Hrest].
    assert (Hfind : job_at (log (Ev_delete_file (id job)) w) (id job) = Some job).
    { unfold job_at. simpl. apply find_job_in; [done|]. apply Hin. by left. }
    rewrite (update_job_found _ _ _ _ Hfind). cbn [jobs log with_jobs now].
    fold (swept (now w) job).
    set (w1 := with_jobs (store_job (jobs w) (id job) (swept (now w) job))
                 (log (Ev_delete_file (id job)) w)).
    assert (Hjobs1 : jobs w1 = List.map (fun r => if String.eqb (id r) (id job)
                                                  then swept (now w) job else r) (jobs w)).
    { unfold w1. simpl. by apply store_job_map. }
    assert (Hnd1 : NoDup (List.map id (jobs w1))).
    { unfold w1. simpl. by rewrite store_job_ids. }
    assert (Hin1 : forall j, In j rest -> In j (jobs w1)).
    { intros j Hj. rewrite Hjobs1. apply in_map_iff. exists j.
      split; [|apply Hin; by right].
      destruct (String.eqb_spec (id j) (id job)) as [E|_]; [|done].
      exfalso. apply Hjob. rewrite <- E. apply list_elem_of_In. by apply in_map. }
    destruct (IH (n + 1) w1 Hnd1 Hrest Hin1) as (H1 & H2 & H3 & H4 & H5 & H6).
    split; [rewrite H1; f_equal; simpl length; lia|].
    split; [|split; [|done]].
    + rewrite H2, Hjobs1. unfold swept_table. rewrite map_map. apply map_ext_in.
      intros r Hr. simpl (now w1).
      destruct (String.eqb_spec (id r) (id job)) as [E|Hne].
      * rewrite id_swept. rewrite (bool_decide_eq_false_2 (id job ∈ _)) by done.
        rewrite bool_decide_eq_true_2 by (rewrite E; apply list_elem_of_here).
        f_equal. pose proof (find_job_in (jobs w) r Hnd Hr) as F1.
        pose proof (find_job_in (jobs w) job Hnd (Hin job (or_introl eq_refl))) as F2.
        rewrite E, F2 in F1. by injection F1.
      * apply (f_equal (fun b : bool => if b then swept (now w) r else r)).
        apply bool_decide_ext. simpl. rewrite elem_of_cons. tauto.
    + rewrite H3. unfold deletions, w1. simpl. by rewrite <- app_assoc.
Qed.

Lemma cleanup_run days_old w :
  NoDup (List.map id (jobs w)) ->
  let old := is_old_job (now w - 86400 * days_old) in
  (cleanup_old_files days_old w).1 = inr (Z.of_nat (length (List.filter old (jobs w))))
  /\ jobs (cleanup_old_files days_old w).2 = swept_table (now w) old (jobs w)
  /\ calls (cleanup_old_files days_old w).2
     = (deletions (List.filter old (jobs w)) ++ calls w)%list
  /\ files (cleanup_old_files days_old w).2 = files w
  /\ writable (cleanup_old_files days_old w).2 = writable w
  /\ now (cleanup_old_files days_old w).2 = now w.
Proof.
  intros Hnd old. unfold cleanup_old_files, bind, utcnow, get_world. fold old.
  assert (Hnl : NoDup (List.map id (List.filter old (jobs w)))).
  { clear -Hnd. induction (jobs w) as [|r rows IH]; simpl in *; [done|].
    apply NoDup_cons in Hnd as [Hr Hnd]. destruct (old r); [|by apply IH].
    simpl. apply NoDup_cons. split; [|by apply IH].
    intros Hin. apply Hr. apply list_elem_of_In, in_map_iff in Hin as (r' & E & Hr').
    apply List.filter_In in Hr' as [Hr' _]. rewrite <- E.
    apply list_elem_of_In. by apply in_map. }
  assert (Hin : forall j, In j (List.filter old (jobs w)) -> In j (jobs w)).
  { intros j Hj. by apply List.filter_In in Hj as [Hj _]. }
  destruct (sweep_run (List.filter old (jobs w)) 0 w Hnd Hnl Hin)
    as (H1 & H2 & H3 & H4 & H5 & H6).
  split; [by rewrite H1|]. split; [|done].
  rewrite H2. unfold swept_table. apply map_ext_in. intros r Hr.
  apply (f_equal (fun b : bool => if b then swept (now w) r else r)).
  destruct (old r) eqn:Hold.
  - apply bool_decide_eq_true_2, list_elem_of_In, in_map. by apply List.filter_In.
  - apply bool_decide_eq_false_2. intros Hid.
    apply list_elem_of_In, in_map_iff in Hid as (r' & E & Hr').
    apply List.filter_In in Hr' as [Hr' Hold'].
    pose proof (find_job_in (jobs w) r Hnd Hr) as F1.
    pose proof (find_job_in (jobs w) r' Hnd Hr') as F2.
    rewrite E, F1 in F2. injection F2 as ->. congruence.
Qed.

(** X9.  What a sweep does to the table.  On a table with one row per id, the
    sweep selects the rows that are Completed, were completed before the
    cutoff ([days_old] days before now) and have a file path.  It reports as
    deleted the number of rows it selected, whatever the disk holds; in each
    selected row it clears [file_path] and [result_url] and stamps
    [updated_at], the status and [file_size] staying; it leaves the other rows
    and the disk as they were, and calls [delete_file] once for each selected
    row, in table order. *)
Theorem cleanup_clears_the_selected_rows days_old w :
  NoDup (List.map id (jobs w)) ->
  let old := is_old_job (now w - 86400 * days_old) in
  let run := cleanup_old_files days_old w in
  run.1 = inr (Z.of_nat (length (List.filter old (jobs w))))
  /\ jobs run.2 = List.map (fun j => if old j then swept (now w) j else j) (jobs w)
  /\ rev (calls run.2)
     = (rev (calls w) ++ List.map (fun j => Ev_delete_file (id j)) (List.filter old (jobs w)))%list
  /\ files run.2 = files w.
Proof.
  intros Hnd. cbv zeta.
  destruct (cleanup_run days_old w Hnd) as (H1 & H2 & H3 & H4 & _).
  split; [exact H1|]. split; [exact H2|]. split; [|exact H4].
  rewrite H3. unfold deletions. by rewrite rev_app_distr, rev_involutive.
Qed.

Lemma cleanup_clears_the_selected_rows_witness :
  let w := three_jobs_world in
  let old := is_old_job (now w - 86400 * 7) in
  let run := cleanup_old_files 7 w in
  run.1 = inr (Z.of_nat (length (List.filter old (jobs w))))
  /\ jobs run.2 = List.map (fun j => if old j then swept (now w) j else j) (jobs w)
  /\ rev (calls run.2)
     = (rev (calls w) ++ List.map (fun j => Ev_delete_file (id j)) (List.filter old (jobs w)))%list
  /\ files run.2 = files w.
Proof.
  apply (cleanup_clears_the_selected_rows 7 three_jobs_world).
  vm_compute. rewrite !NoDup_cons, !not_elem_of_cons.
  repeat split; try discriminate; try apply not_elem_of_nil. apply NoDup_nil_2.
Defined.

Lemma swept_not_old c t j : is_old_job c (swept t j) = false.
Proof. unfold is_old_job. simpl. by rewrite andb_false_r. Qed.

Lemma no_old_job_after_sweep c t rows :
  List.filter (is_old_job c) (swept_table t (is_old_job c) rows) = [].
Proof.
  unfold swept_table. induction rows as [|r rows IH]; [done|].
  cbn [List.map List.filter]. destruct (is_old_job c r) eqn:Hold.
  - by rewrite swept_not_old.
  - by rewrite Hold.
Qed.

(** X10.  A second sweep finds nothing to do.  Run again at the same time and
    with the same age, the sweep selects no row, reports zero deleted files
    and leaves the world as the first sweep left it: the rows of the first
    sweep have no file path any more. *)
Theorem cleanup_twice days_old w :
  NoDup (List.map id (jobs w)) ->
  cleanup_old_files days_old (cleanup_old_files days_old w).2
  = (inr 0, (cleanup_old_files days_old w).2).
Proof.
  intros Hnd. destruct (cleanup_run days_old w Hnd) as (_ & H2 & _ & _ & _ & H6).
  unfold cleanup_old_files at 1. unfold bind, utcnow, get_world. rewrite H6, H2.
  by rewrite no_old_job_after_sweep.
Qed.

Lemma cleanup_twice_witness :
  cleanup_old_files 7 (cleanup_old_files 7 three_jobs_world).2
  = (inr 0, (cleanup_old_files 7 three_jobs_world).2).
Proof.
  apply (cleanup_twice 7 three_jobs_world).
  vm_compute. rewrite !NoDup_cons, !not_elem_of_cons.
  repeat split; try discriminate; try apply not_elem_of_nil. apply NoDup_nil_2.
Defined.

(** ** The paths of the storage service *)

Lemma length_append s1 s2 :
  String.length (s1 ++ s2) = (String.length s1 + String.length s2)%nat.
Proof. induction s1 as [|c s1 IH]; simpl; [done|]. by rewrite IH. Qed.

Lemma append_inv_tail s : forall a b, a ++ s = b ++ s -> a = b.
Proof.
  induction a as [|c a IH]; intros [|d b] H.
  - done.
  - apply (f_equal String.length) in H. rewrite !length_append in H.
    cbn [String.length] in H. lia.
  - apply (f_equal String.length) in H. rewrite !length_append in H.
    cbn [String.length] in H. lia.
  - change (String c (a ++ s) = String d (b ++ s)) in H.
    injection H as -> H. f_equal. by apply IH.
Qed.

(** X11.  The paths that the storage service derives from the id of a job.
    For one extension, two jobs have the same media file only if they are the
    same job; two jobs have the same metadata file only if they are the same
    job; and no metadata file is a media file. *)
Theorem storage_paths_are_distinct job_id job_id' extension :
  (_generate_file_path job_id extension = _generate_file_path job_id' extension
   <-> job_id = job_id')
  /\ (_generate_metadata_path job_id = _generate_metadata_path job_id'
      <-> job_id = job_id')
  /\ _generate_file_path job_id extension <> _generate_metadata_path job_id'.
Proof.
  split; [|split].
  - split; [|by intros ->]. unfold _generate_file_path. intros H.
    apply (inj (String.append base_path)), (inj (String.append "/")) in H.
    by apply append_inv_tail in H.
  - split; [|by intros ->]. unfold _generate_metadata_path. intros H.
    apply (inj (String.append metadata_path)), (inj (String.append "/")) in H.
    by apply append_inv_tail in H.
  - unfold _generate_file_path, _generate_metadata_path. intros H.
    cbv [base_path metadata_path String.append] in H. discriminate H.
Qed.

(** ** What the methods of the storage service change *)

Lemma touches_only_write path : touches_only path (write_file path).
Proof.
  intros w. unfold write_file. destruct (writable w) eqn:E; simpl.
  - split; [|done]. intros p Hp. rewrite elem_of_union, elem_of_singleton. tauto.
  - split; [intros p _; reflexivity|done].
Qed.

Lemma touches_only_remove path : touches_only path (os_remove path).
Proof.
  intros w. unfold os_remove. destruct (writable w) eqn:E; simpl.
  - split; [|done]. intros p Hp. rewrite elem_of_difference, elem_of_singleton. tauto.
  - split; [intros p _; reflexivity|done].
Qed.

Lemma touches_only_as_StorageError {A} path what job_id (m : M A) :
  touches_only path m -> touches_only path (as_StorageError what job_id m).
Proof.
  intros Hm w. specialize (Hm w). unfold as_StorageError, try_except, raise.
  by destruct (m w) as [[e|a] w'].
Qed.

Lemma touches_only_then {A B} path (m : M A) (b : B) :
  touches_only path m -> touches_only path (m ;;; ret b).
Proof.
  intros Hm w. specialize (Hm w). unfold bind, ret. by destruct (m w) as [[e|a] w'].
Qed.

(** X12.  Each method of the storage service that writes or removes changes
    the disk at one path only, the path of its job, and changes nothing else
    in the world: saving or deleting the file or the metadata of one job
    leaves the files of the other jobs there. *)
Theorem storage_methods_touch_one_path job_id file_data extension metadata :
  touches_only (_generate_file_path job_id extension)
    (save_file_body job_id file_data extension)
  /\ touches_only (_generate_metadata_path job_id) (save_metadata_body job_id metadata)
  /\ touches_only (_generate_file_path job_id extension)
       (delete_file_body job_id extension)
  /\ touches_only (_generate_metadata_path job_id) (delete_metadata_body job_id).
Proof.
  split; [|split; [|split]].
  - apply touches_only_as_StorageError, touches_only_then, touches_only_write.
  - apply touches_only_as_StorageError, touches_only_then, touches_only_write.
  - apply touches_only_as_StorageError. intros w. unfold bind, path_exists.
    destruct (bool_decide _); [|done].
    apply (touches_only_then _ _ true (touches_only_remove _)).
  - apply touches_only_as_StorageError. intros w. unfold bind, path_exists.
    destruct (bool_decide _); [|done].
    apply (touches_only_then _ _ true (touches_only_remove _)).
Qed.

(** ** Saving, reading and deleting a file *)

Lemma save_file_body_run job_id data extension w :
  writable w = true ->
  save_file_body job_id data extension w
  = (inr (_generate_file_path job_id extension, _generate_file_url job_id extension),
     with_files ({[ _generate_file_path job_id extension ]} ∪ files w) w).
Proof.
  intros Hw. unfold save_file_body, as_StorageError, try_except, bind, write_file.
  by rewrite Hw.
Qed.

Lemma get_file_body_present fc job_id extension w :
  _generate_file_path job_id extension ∈ files w ->
  get_file_body fc job_id extension w
  = (inr (read_bytes fc (_generate_file_path job_id extension)), w).
Proof.
  intros Hin. unfold get_file_body, as_StorageError, try_except, bind, path_exists.
  by rewrite bool_decide_eq_true_2.
Qed.

Lemma get_file_body_missing fc job_id extension w :
  _generate_file_path job_id extension ∉ files w ->
  get_file_body fc job_id extension w = (inl (file_not_found job_id), w).
Proof.
  intros Hin. unfold get_file_body, as_StorageError, try_except, bind, path_exists.
  by rewrite bool_decide_eq_false_2.
Qed.

Lemma delete_file_body_there job_id extension w :
  _generate_file_path job_id extension ∈ files w -> writable w = true ->
  delete_file_body job_id extension w
  = (inr true, with_files (files w ∖ {[ _generate_file_path job_id extension ]}) w).
Proof.
  intros Hin Hw. unfold delete_file_body, as_StorageError, try_except, bind, path_exists,
    os_remove. rewrite bool_decide_eq_true_2; [|done]. by rewrite Hw.
Qed.

Lemma delete_file_body_not_there job_id extension w :
  _generate_file_path job_id extension ∉ files w ->
  delete_file_body job_id extension w = (inr false, w).
Proof.
  intros Hnot. unfold delete_file_body, as_StorageError, try_except, bind, path_exists.
  by rewrite bool_decide_eq_false_2.
Qed.

(** X13.  A file through its life.  On a disk that takes writes, [save_file]
    (its body, when it is run) returns the path and the URL that
    [get_file_path] and [get_file_url] give for the job; [get_file] then
    returns what the file holds; [delete_file] then removes the file and
    answers [True]; after that [get_file] raises [StorageError] and a second
    [delete_file] answers [False] and changes nothing. *)
Theorem saved_file_round_trip fc job_id data extension w :
  writable w = true ->
  exists w1 w2,
    save_file_body job_id data extension w
    = (inr (get_file_path job_id extension, get_file_url job_id extension), w1)
    /\ get_file_body fc job_id extension w1
       = (inr (read_bytes fc (get_file_path job_id extension)), w1)
    /\ delete_file_body job_id extension w1 = (inr true, w2)
    /\ get_file_body fc job_id extension w2 = (inl (file_not_found job_id), w2)
    /\ delete_file_body job_id extension w2 = (inr false, w2).
Proof.
  intros Hw. unfold get_file_path, get_file_url.
  set (path := _generate_file_path job_id extension).
  assert (Hin : path ∈ {[ path ]} ∪ files w).
  { by apply elem_of_union_l, elem_of_singleton_2. }
  assert (Hout : path ∉ ({[ path ]} ∪ files w) ∖ {[ path ]}).
  { rewrite elem_of_difference, elem_of_singleton. tauto. }
  eexists _, _. split; [by apply save_file_body_run|].
  split; [by apply get_file_body_present|].
  split; [by apply delete_file_body_there|].
  split; [by apply get_file_body_missing|by apply delete_file_body_not_there].
Qed.

Lemma saved_file_round_trip_witness :
  exists w1 w2,
    save_file_body "job-1" [Byte.x89] "png" (world_of pending_job)
    = (inr (get_file_path "job-1" "png", get_file_url "job-1" "png"), w1)
    /\ get_file_body sample_contents "job-1" "png" w1
       = (inr (read_bytes sample_contents (get_file_path "job-1" "png")), w1)
    /\ delete_file_body "job-1" "png" w1 = (inr true, w2)
    /\ get_file_body sample_contents "job-1" "png" w2 = (inl (file_not_found "job-1"), w2)
    /\ delete_file_body "job-1" "png" w2 = (inr false, w2).
Proof.
  apply (saved_file_round_trip sample_contents "job-1" [Byte.x89] "png" (world_of pending_job)).
  reflexivity.
Defined.

(** ** The errors of the storage service *)





(** ** Creating a job and reading it back *)

Lemma find_job_app_fresh rows job :
  find_job rows (id job) = None -> find_job (rows ++ [job]) (id job) = Some job.
Proof.
  induction rows as [|r rows IH]; simpl.
  - by rewrite String.eqb_refl.
  - destruct (String.eqb (id r) (id job)); [discriminate|exact IH].
Qed.

Lemma find_job_app_other rows job i :
  i <> id job -> find_job (rows ++ [job]) i = find_job rows i.
Proof.
  intros Hne. induction rows as [|r rows IH]; simpl.
  - destruct (String.eqb_spec (id job) i); [congruence|done].
  - by rewrite IH.
Qed.

(** X15.  A job created is a job found.  When the key drawn for the new row
    is not in the table and the broker takes the message, [create_generation_job]
    answers with the new job, adds its row at the end of the table and leaves
    the other rows alone; [get_job_status] for the new id then answers the same
    response.  The new job has the status that the request carries (the
    request may carry any status; [PENDING] is only the default), no retry, no
    error and no result. *)
Theorem created_job_is_found uuid4 delay job_request w :
  job_at w uuid4 = None ->
  delay uuid4 = inr tt ->
  let created := create_generation_job uuid4 delay job_request w in
  exists response,
    created.1 = inr response
    /\ get_job_status uuid4 created.2 = inr response
    /\ jobs created.2 = (jobs w ++ [new_job uuid4 (now w) job_request])%list
    /\ (forall i, i <> uuid4 -> get_job_status i created.2 = get_job_status i w)
    /\ resp_id response = uuid4
    /\ resp_status response = req_status job_request
    /\ resp_prompt response = req_prompt job_request
    /\ resp_created_at response = now w
    /\ resp_retry_count response = 0
    /\ resp_error_message response = None
    /\ resp_result_url response = None.
Proof.
  intros Hfresh Hdelay. cbv zeta. unfold create_generation_job.
  unfold job_at in Hfresh. rewrite Hfresh. cbn [id new_job]. rewrite Hdelay. cbn [fst snd].
  eexists. split; [reflexivity|]. split; [|split; [done|split; [|done]]].
  - unfold get_job_status. cbn [jobs with_jobs].
    pose proof (find_job_app_fresh (jobs w) (new_job uuid4 (now w) job_request) Hfresh) as F.
    cbn [id new_job] in F. by rewrite F.
  - intros i Hi. unfold get_job_status. cbn [jobs with_jobs].
    by rewrite find_job_app_other.
Qed.

Lemma created_job_is_found_witness :
  let created := create_generation_job "job-9" broker_up sample_request (world_of completed_job) in
  exists response,
    created.1 = inr response
    /\ get_job_status "job-9" created.2 = inr response
    /\ jobs created.2
       = (jobs (world_of completed_job)
          ++ [new_job "job-9" (now (world_of completed_job)) sample_request])%list
    /\ (forall i, i <> "job-9" ->
          get_job_status i created.2 = get_job_status i (world_of completed_job))
    /\ resp_id response = "job-9"
    /\ resp_status response = req_status sample_request
    /\ resp_prompt response = req_prompt sample_request
    /\ resp_created_at response = now (world_of completed_job)
    /\ resp_retry_count response = 0
    /\ resp_error_message response = None
    /\ resp_result_url response = None.
Proof.
  apply (created_job_is_found "job-9" broker_up sample_request (world_of completed_job));
    reflexivity.
Defined.

(** X16.  The row is stored before the task is queued.  When the broker
    refuses the message, [create_generation_job] answers 500 "Failed to create
    job: ..." with the error of the broker, and yet the row of the job is in
    the table, as the request described it: the commit came first, and the
    rollback of the handler has nothing left to undo. *)
Theorem job_is_stored_before_it_is_queued uuid4 delay job_request w e :
  job_at w uuid4 = None ->
  delay uuid4 = inl e ->
  let created := create_generation_job uuid4 delay job_request w in
  created.1 = inl (HTTPException 500 ("Failed to create job: " ++ exn_msg e))
  /\ get_job_status uuid4 created.2
     = inr (job_response (new_job uuid4 (now w) job_request)).
Proof.
  intros Hfresh Hdelay. cbv zeta. unfold create_generation_job.
  unfold job_at in Hfresh. rewrite Hfresh. cbn [id new_job]. rewrite Hdelay. cbn [fst snd].
  split; [done|]. unfold get_job_status. cbn [jobs with_jobs].
  pose proof (find_job_app_fresh (jobs w) (new_job uuid4 (now w) job_request) Hfresh) as F.
  cbn [id new_job] in F. by rewrite F.
Qed.

Lemma job_is_stored_before_it_is_queued_witness :
  let created :=
    create_generation_job "job-9" broker_down sample_request (world_of completed_job) in
  created.1
  = inl (HTTPException 500
           ("Failed to create job: "
            ++ exn_msg (Exn OtherException
                          "Error 111 connecting to localhost:6379. Connection refused.")))
  /\ get_job_status "job-9" created.2
     = inr (job_response (new_job "job-9" (now (world_of completed_job)) sample_request)).
Proof.
  apply (job_is_stored_before_it_is_queued "job-9" broker_down sample_request
           (world_of completed_job)); reflexivity.
Defined.

(** ** Cancelling twice *)



(** ** Listing the jobs *)

#[local] Instance created_later_total : Total created_later.
Proof. intros a b. unfold created_later. lia. Qed.

#[local] Instance created_later_trans : Transitive created_later.
Proof. intros a b c. unfold created_later. lia. Qed.

Lemma StronglySorted_map_response rows :
  StronglySorted created_later rows ->
  StronglySorted listed_before (List.map job_response rows).
Proof.
  induction 1 as [|a rows Hs IH Hall]; simpl; constructor; [done|].
  clear -Hall. induction Hall; simpl; constructor; done.
Qed.

Lemma StronglySorted_take_drop {A} (R : relation A) n m l :
  StronglySorted R l -> StronglySorted R (take n (drop m l)).
Proof.
  intros Hl. rewrite <- (take_drop m l) in Hl. apply StronglySorted_app_1_r in Hl.
  rewrite <- (take_drop n (drop m l)) in Hl. by apply StronglySorted_app_1_l in Hl.
Qed.

Lemma In_take_drop {A} n m (l : list A) x : In x (take n (drop m l)) -> In x l.
Proof.
  intros Hin. rewrite <- (take_drop m l). apply in_or_app. right.
  rewrite <- (take_drop n (drop m l)). apply in_or_app. by left.
Qed.

(** X18.  A page of [list_jobs].  The endpoint returns at most [limit]
    responses; each is the response of a row of the table, and of a row with
    the status asked for when one is asked for; they come by creation time,
    the later first.  Without a status, from offset 0 and with a limit that
    the table does not exceed, the page holds every row of the table once. *)
Theorem list_jobs_page status_filter limit offset w :
  let page := list_jobs status_filter limit offset w in
  (length page <= limit)%nat
  /\ (forall response, In response page ->
        exists job, In job (jobs w) /\ response = job_response job
                    /\ forall s, status_filter = Some s -> status job = s)
  /\ StronglySorted listed_before page
  /\ (status_filter = None -> offset = 0%nat -> (length (jobs w) <= limit)%nat ->
      page ≡ₚ List.map job_response (jobs w)).
Proof.
  cbv zeta. unfold list_jobs.
  set (selected := match status_filter with
                   | Some s => List.filter (fun job => bool_decide (status job = s)) (jobs w)
                   | None => jobs w
                   end).
  split; [|split; [|split]].
  - rewrite length_map. apply firstn_le_length.
  - intros response Hin. apply in_map_iff in Hin as (job & <- & Hin).
    apply In_take_drop in Hin. apply list_elem_of_In in Hin.
    rewrite merge_sort_Permutation in Hin. apply list_elem_of_In in Hin.
    exists job. split; [|split; [done|]].
    + unfold selected in Hin. destruct status_filter; [|done].
      by apply List.filter_In in Hin as [Hin _].
    + intros s ->. unfold selected in Hin.
      apply List.filter_In in Hin as [_ Hs]. by apply bool_decide_eq_true in Hs.
  - apply StronglySorted_map_response, StronglySorted_take_drop.
    apply StronglySorted_merge_sort; apply _.
  - intros -> -> Hlen. unfold selected. rewrite drop_0.
    rewrite take_ge by (by rewrite merge_sort_Permutation).
    apply Permutation_map, merge_sort_Permutation.
Qed.

(** ** Downloading the file of a job *)

(** The endpoint, with the call of the storage service worked out. *)
Lemma download_media_file_run fc job_id w :
  download_media_file fc job_id w
  = match job_at w job_id with
    | None => inl (HTTPException 404 ("Job " ++ job_id ++ " not found"))
    | Some job =>
        if negb (bool_decide (status job = COMPLETED)) then
          inl (HTTPException 400
                 ("Job " ++ job_id ++ " is not completed. Status: "
                  ++ status_value (status job)))
        else if negb (truthy (file_path job)) then
          inl (HTTPException 404 ("No file available for job " ++ job_id))
        else if bool_decide (get_file_path job_id "png" ∈ files w) then
          inr (served_file job_id)
        else inl (HTTPException 404 ("File not found for job " ++ job_id))
    end.
Proof.
  unfold download_media_file, job_at. destruct (find_job (jobs w) job_id) as [job|]; [|done].
  destruct (negb (bool_decide (status job = COMPLETED))); [done|].
  destruct (negb (truthy (file_path job))); [done|].
  unfold bind at 1. unfold get_file, ret, await, co_body, get_file_path.
  destruct (decide (_generate_file_path job_id "png" ∈ files w)) as [Hin|Hout].
  - rewrite (get_file_body_present fc job_id "png" w Hin).
    by rewrite bool_decide_eq_true_2.
  - rewrite (get_file_body_missing fc job_id "png" w Hout).
    by rewrite bool_decide_eq_false_2.
Qed.

(** X19.  When a download succeeds.  [download_media_file] serves a file
    exactly when the job exists, is Completed, has a file path that is not
    empty, and the disk has a file at the path that the storage service
    derives from the id of the job.  What it serves is the file at that
    derived path, under the name "generated_<id>.png": the path stored in the
    row is not used.  In every other case it answers 404 or 400, never 500. *)
Theorem download_succeeds_exactly_when fc job_id w :
  (forall response,
     download_media_file fc job_id w = inr response
     <-> response = served_file job_id
         /\ exists job, job_at w job_id = Some job
              /\ status job = COMPLETED
              /\ truthy (file_path job) = true
              /\ get_file_path job_id "png" ∈ files w)
  /\ (forall status_code detail,
        download_media_file fc job_id w = inl (HTTPException status_code detail) ->
        status_code = 404 \/ status_code = 400).
Proof.
  rewrite download_media_file_run. split.
  - intros response. destruct (job_at w job_id) as [job|].
    + destruct (decide (status job = COMPLETED)) as [Hs|Hs].
      * rewrite (bool_decide_eq_true_2 _ Hs). cbn [negb].
        destruct (truthy (file_path job)) eqn:Hp; cbn [negb].
        -- destruct (decide (get_file_path job_id "png" ∈ files w)) as [Hin|Hout].
           ++ rewrite (bool_decide_eq_true_2 _ Hin). split.
              ** intros [= <-]. split; [done|]. by exists job.
              ** by intros [-> _].
           ++ rewrite (bool_decide_eq_false_2 _ Hout). split; [discriminate|].
              intros [_ (job' & [= <-] & _ & _ & Hin)]. done.
        -- split; [discriminate|]. intros [_ (job' & [= <-] & _ & Hp' & _)]. congruence.
      * rewrite (bool_decide_eq_false_2 _ Hs). cbn [negb]. split; [discriminate|].
        intros [_ (job' & [= <-] & Hs' & _)]. done.
    + split; [discriminate|]. intros [_ (job' & ? & _)]. discriminate.
  - intros code detail. destruct (job_at w job_id) as [job|].
    + destruct (negb (bool_decide (status job = COMPLETED))).
      { intros [= <- _]. by right. }
      destruct (negb (truthy (file_path job))).
      { intros [= <- _]. by left. }
      destruct (bool_decide _); [discriminate|]. intros [= <- _]. by left.
    + intros [= <- _]. by left.
Qed.

(** ** The metadata of a submitted job *)

Lemma get_metadata_body_present env fc job_id w metadata :
  _generate_metadata_path job_id ∈ files w ->
  json_loads env (read_text fc (get_metadata_path job_id)) = Some metadata ->
  get_metadata_body env fc job_id w = (inr metadata, w).
Proof.
  intros Hin Hjson. unfold get_metadata_path in Hjson.
  unfold get_metadata_body, as_StorageError, try_except, bind, path_exists.
  rewrite (bool_decide_eq_true_2 _ Hin). cbn [negb]. by rewrite Hjson.
Qed.

(** A run whose submission is accepted leaves the metadata file of the job on
    the disk. *)
Lemma submitted_run_leaves_metadata env r i w j :
  job_at w i = Some j ->
  truthy (external_job_id j) = false ->
  submission_accepted env w j ->
  _generate_metadata_path i ∈ files (process_media_generation env r i w).2.
Proof.
  intros Hj Hh (Hw & kwargs & hd & Hp & Hc). rewrite (task_run env r i w j Hj).
  destruct (update_job_frame w i (first_update r (now w))) as (Hf1 & Hw1 & _ & Hc1).
  pose proof (job_at_update w i (first_update r (now w)) j Hj) as Hj1.
  pose proof (first_update_same_request r (now w) (now w) j) as Hsame1.
  revert Hj1 Hsame1.
  generalize (set_updated_at (now w) (fold_left setattr (first_update r (now w)) j)).
  intros j1 Hj1 (Hq1 & Hq2 & Hq3 & Hq4).
  assert (Hp1 : params_ok (parse_parameters env j1) kwargs).
  { by rewrite (parse_parameters_same env j j1 Hq1). }
  set (P := fun w' : World => _generate_metadata_path i ∈ files w').
  assert (Hupd : forall us w', writes all_fields us = true ->
                               P w' -> P (update_job i us w').2).
  { intros us w' _ Hw'. unfold P.
    by destruct (update_job_frame w' i us) as (-> & _). }
  unfold generate_and_poll. rewrite Hq4, Hh. simpl negb. cbv iota. unfold bind at 1.
  rewrite (start_generation_succeeds env i j1 _ kwargs Hp1 hd j1 Hj1);
    [|by rewrite Hc1, Hq2, Hq3|by rewrite Hw1].
  match goal with |- context [bind _ _ ?w2] =>
    assert (H2 : P w2) end.
  { unfold P. cbn [files with_files]. by apply elem_of_union_l, elem_of_singleton_2. }
  pose proof (polling_preserves env i P all_kinds all_fields
                ltac:(done) ltac:(done) Hupd ltac:(done) ltac:(done)
                (setattr j1 (Set_external_job_id hd)) _ H2) as H3.
  match goal with |- _ ∈ files (match ?x with _ => _ end).2 =>
    destruct x as [[e|res] w3] end; simpl in H3; [|done].
  by apply (on_exception_preserves i P all_fields Hupd).
Qed.

(** X20.  The metadata of a submitted job can be read.  After a run that
    submitted the job (the service accepted the submission and the disk took
    the file), [get_job_metadata] for the job answers what the metadata file
    holds, whenever that is JSON; it does so whatever the polling of that run
    came to. *)
Theorem metadata_is_served_after_submission env fc r i w j metadata :
  job_at w i = Some j ->
  truthy (external_job_id j) = false ->
  submission_accepted env w j ->
  json_loads env (read_text fc (get_metadata_path i)) = Some metadata ->
  get_job_metadata env fc i (process_media_generation env r i w).2 = inr metadata.
Proof.
  intros Hj Hh Hsub Hjson.
  pose proof (submitted_run_leaves_metadata env r i w j Hj Hh Hsub) as Hin.
  destruct (task_keeps_row env r i w j Hj) as [j' Hj'].
  unfold get_job_metadata. unfold job_at in Hj'. rewrite Hj'.
  unfold bind, get_metadata, ret, await, co_body.
  by rewrite (get_metadata_body_present env fc i _ metadata Hin Hjson).
Qed.

Lemma metadata_is_served_after_submission_witness :
  let env := sample_env (inr "ext-1") (fun _ => inr pred_failed) in
  get_job_metadata env sample_contents "job-1"
    (process_media_generation env 0 "job-1" (world_of pending_job)).2
  = inr (PyDict []).
Proof.
  apply (metadata_is_served_after_submission _ sample_contents 0 "job-1"
           (world_of pending_job) pending_job (PyDict [])).
  - reflexivity.
  - reflexivity.
  - split; [reflexivity|]. exists [], "ext-1". split; [|reflexivity]. by split.
  - reflexivity.
Defined.

(** ** The payload of a submission *)

Lemma dict_lookup_filter_absent key (keep : string * pyval -> bool) d :
  ~ In key (List.map fst d) -> dict_lookup key (List.filter keep d) = None.
Proof.
  induction d as [|[k v] d IH]; cbn [List.map List.filter fst]; [done|].
  intros Hnot. destruct (keep (k, v)); cbn [dict_lookup].
  - destruct (String.eqb_spec k key) as [->|_]; [exfalso; apply Hnot; by left|].
    apply IH. intros Hin. apply Hnot. by right.
  - apply IH. intros Hin. apply Hnot. by right.
Qed.

(** Dropping the entries that are [None] from a dictionary display whose keys
    differ. *)
Lemma dict_lookup_without_none key d :
  NoDup (List.map fst d) ->
  dict_lookup key (List.filter (fun kv => negb (is_none kv.2)) d)
  = match dict_lookup key d with
    | Some v => if is_none v then None else Some v
    | None => None
    end.
Proof.
  induction d as [|[k v] d IH]; cbn [List.map List.filter fst snd]; [done|].
  intros Hnd. apply NoDup_cons in Hnd as [Hk Hnd]. cbn [dict_lookup].
  destruct (String.eqb_spec k key) as [->|Hne].
  - destruct (is_none v) eqn:Ev; cbn [negb dict_lookup].
    + apply dict_lookup_filter_absent. intros Hin. apply Hk. by apply list_elem_of_In.
    + by rewrite String.eqb_refl.
  - destruct (is_none v); cbn [negb dict_lookup]; [by apply IH|].
    destruct (String.eqb_spec k key); [done|by apply IH].
Qed.

(** X21.  What [generate_image] sends.  The payload always carries the prompt
    of the call and [num_outputs] = 1: no keyword argument changes them.  For
    each of width, height, num_inference_steps, guidance_scale and seed it
    carries the value that the caller gave, the default when the caller gave
    none, and no entry at all when that value is [None] (a caller who passes
    [None] for the width gets no width, not the default).  It carries nothing
    else: any other keyword argument is dropped. *)
Theorem build_input_entries prompt kwargs :
  dict_lookup "prompt" (build_input prompt kwargs) = Some (PyStr prompt)
  /\ dict_lookup "num_outputs" (build_input prompt kwargs) = Some (PyInt 1)
  /\ Forall (fun kd => dict_lookup kd.1 (build_input prompt kwargs)
                       = payload_entry kwargs kd.1 kd.2) tunable
  /\ (forall key, key <> "prompt" -> key <> "num_outputs" ->
        ~ In key (List.map fst tunable) ->
        dict_lookup key (build_input prompt kwargs) = None)
  /\ Forall (fun kv => kv.2 <> PyNone) (build_input prompt kwargs).
Proof.
  assert (Hnd : forall v1 v2 v3 v4 v5 : pyval,
    NoDup (List.map fst
      [ ("prompt", PyStr prompt); ("width", v1); ("height", v2); ("num_outputs", PyInt 1);
        ("num_inference_steps", v3); ("guidance_scale", v4); ("seed", v5) ])).
  { intros. cbn [List.map fst]. rewrite !NoDup_cons, !not_elem_of_cons.
    repeat split; try discriminate; try apply not_elem_of_nil. apply NoDup_nil_2. }
  unfold build_input, tunable, payload_entry. rewrite !Forall_cons. cbn [fst snd].
  rewrite !dict_lookup_without_none by apply Hnd.
  split; [reflexivity|]. split; [reflexivity|].
  split; [repeat split; try apply Forall_nil_2; reflexivity|]. split.
  - intros key H1 H2 H3. rewrite dict_lookup_without_none by apply Hnd.
    cbn in H3. cbn [dict_lookup].
    repeat match goal with
      | |- context [String.eqb ?a ?k] =>
          destruct (String.eqb_spec a k) as [<-|?]; [exfalso; tauto|]
      end.
    reflexivity.
  - apply Forall_forall. intros [k v] Hin. apply list_elem_of_In in Hin.
    apply List.filter_In in Hin as [_ Hv]. cbn [snd] in *. by intros ->.
Qed.

(** ** The metadata of a generation *)

Lemma dict_lookup_app key d1 d2 :
  dict_lookup key (d1 ++ d2)%list
  = match dict_lookup key d1 with Some v => Some v | None => dict_lookup key d2 end.
Proof.
  induction d1 as [|[k v] d1 IH]; cbn [app dict_lookup]; [done|].
  by destruct (String.eqb k key).
Qed.

Lemma dict_lookup_merge key base extra :
  dict_lookup key (dict_merge base extra)
  = match dict_lookup key extra with
    | Some v => Some v
    | None => dict_lookup key base
    end.
Proof.
  unfold dict_merge. rewrite dict_lookup_app.
  assert (H1 : dict_lookup key (List.map (fun kv => (kv.1, dict_get extra kv.1 kv.2)) base)
               = match dict_lookup key base with
                 | Some v => Some (dict_get extra key v)
                 | None => None
                 end).
  { induction base as [|[k v] base IH]; cbn [List.map dict_lookup fst snd]; [done|].
    destruct (String.eqb_spec k key) as [->|_]; [done|exact IH]. }
  rewrite H1. clear H1. destruct (dict_lookup key base) as [v|] eqn:Hb.
  - unfold dict_get. by destruct (dict_lookup key extra).
  - induction extra as [|[k v] extra IH]; cbn [List.filter dict_lookup fst]; [done|].
    destruct (String.eqb_spec k key) as [->|Hne].
    + unfold dict_has. rewrite Hb. cbn [negb dict_lookup]. by rewrite String.eqb_refl.
    + destruct (negb (dict_has base k)); cbn [dict_lookup]; [|exact IH].
      by destruct (String.eqb_spec k key).
Qed.

(** X22.  The metadata saved for a generation.  They hold every parameter of
    the job with its value, and, for the keys that no parameter has, the
    prompt, the model name, the external id and the creation time of the job.
    So a parameter named "model_name", "external_job_id" or "created_at"
    replaces what the job has; the prompt is never replaced, since parameters
    that name the prompt do not reach the client. *)
Theorem metadata_entries env job external_job_id kwargs :
  (forall key,
     dict_lookup key (build_metadata env job external_job_id (PyDict kwargs))
     = match dict_lookup key kwargs with
       | Some v => Some v
       | None => dict_lookup key (metadata_base env job external_job_id)
       end)
  /\ (params_ok (PyDict kwargs) kwargs ->
      dict_lookup "prompt" (build_metadata env job external_job_id (PyDict kwargs))
      = Some (PyStr (prompt job))).
Proof.
  assert (H : forall key,
     dict_lookup key (build_metadata env job external_job_id (PyDict kwargs))
     = match dict_lookup key kwargs with
       | Some v => Some v
       | None => dict_lookup key (metadata_base env job external_job_id)
       end).
  { intros key. unfold build_metadata, as_mapping. apply dict_lookup_merge. }
  split; [exact H|]. intros [_ Hok]. rewrite H.
  apply orb_false_elim in Hok as [Hok _]. apply orb_false_elim in Hok as [_ Hok].
  unfold dict_has in Hok. by destruct (dict_lookup "prompt" kwargs).
Qed.

(** ** The version sent to the service *)

Lemma append_char p c s : p ++ String c s = (p ++ String c "") ++ s.
Proof.
  induction p as [|a p IH]; [done|].
  change (String a (p ++ String c s) = String a ((p ++ String c "") ++ s)).
  by rewrite IH.
Qed.

Lemma str_split_without sep s :
  str_contains sep s = false -> str_split sep s = [s].
Proof.
  induction s as [|c s IH]; cbn [str_contains str_split]; [done|].
  destruct (Ascii.eqb c sep); [discriminate|]. intros Hs. by rewrite (IH Hs).
Qed.

Lemma str_split_with sep s :
  str_contains sep s = true ->
  exists first rest,
    str_split sep s = first :: rest /\ rest <> []
    /\ str_contains sep (List.last rest "") = false
    /\ exists prefix, s = prefix ++ String sep (List.last rest "").
Proof.
  induction s as [|c s IH]; cbn [str_contains str_split]; [discriminate|].
  destruct (Ascii.eqb_spec c sep) as [->|Hne]; cbn [orb].
  - intros _. exists "", (str_split sep s). split; [done|].
    destruct (str_contains sep s) eqn:Hs.
    + destruct (IH eq_refl) as (first & rest & -> & Hrest & Hlast & prefix & Hp).
      split; [done|]. destruct rest as [|r rest]; [done|]. cbn [List.last] in *.
      split; [exact Hlast|]. exists (String sep prefix). by rewrite Hp at 1.
    + rewrite (str_split_without sep s Hs). split; [done|]. cbn [List.last].
      split; [exact Hs|]. by exists "".
  - intros Hs. destruct (IH Hs) as (first & rest & -> & Hrest & Hlast & prefix & Hp).
    exists (String c first), rest. split; [done|]. split; [done|]. split; [done|].
    exists (String c prefix). by rewrite Hp at 1.
Qed.

(** X23.  The version in the request of [create_prediction].  It is the part
    of the model name after its last colon, and the whole name when the name
    has no colon; so it never holds a colon.  For an empty model name and for
    "stable-diffusion", the default of a job, it is the version of Flux
    Schnell. *)
Theorem version_is_the_part_after_the_last_colon model :
  let sent := RealReplicateClient.version (RealReplicateClient.default_model model) in
  str_contains ":" sent = false
  /\ (exists prefix,
        RealReplicateClient.default_model model = prefix ++ sent
        /\ (prefix = "" \/ exists p, prefix = p ++ ":"))
  /\ (str_contains ":" model = false -> model <> "" -> model <> "stable-diffusion" ->
      sent = model)
  /\ (model = "" \/ model = "stable-diffusion" ->
      sent = "bf2f3f8fcd2c8bafa49d6f72e342c33c5463d78947f7a0eb8a6eb5da05c4e0c2").
Proof.
  cbv zeta. split; [|split; [|split]].
  - generalize (RealReplicateClient.default_model model). intros m.
    unfold RealReplicateClient.version. destruct (str_contains ":" m) eqn:Hm; [|done].
    destruct (str_split_with ":" m Hm) as (first & rest & -> & Hrest & Hlast & _).
    destruct rest; [done|]. exact Hlast.
  - generalize (RealReplicateClient.default_model model). intros m.
    unfold RealReplicateClient.version. destruct (str_contains ":" m) eqn:Hm.
    + destruct (str_split_with ":" m Hm) as (first & rest & -> & Hrest & _ & prefix & Hp).
      destruct rest as [|r rest]; [done|]. cbn [List.last] in *.
      exists (prefix ++ ":"). split; [|by right; exists prefix].
      rewrite Hp at 1. apply append_char.
    + exists "". split; [done|by left].
  - intros Hm H1 H2. unfold RealReplicateClient.default_model.
    destruct (String.eqb_spec model ""); [done|].
    destruct (String.eqb_spec model "stable-diffusion"); [done|]. cbn [orb].
    unfold RealReplicateClient.version. by rewrite Hm.
  - by intros [-> | ->].
Qed.

(** ** What the client raises and accepts *)


(** ** The service with the mock client *)

(** A submission that the client answers with an exception that is not a
    [ReplicateAPIError]: the start phase records nothing and passes it on. *)
Lemma start_generation_passes_on env i job w kwargs e :
  params_ok (parse_parameters env job) kwargs ->
  create_prediction env (count_calls is_create_prediction (calls w))
    (model_name job) (build_input (prompt job) kwargs) = inl e ->
  is_ReplicateAPIError e = false ->
  start_generation env i job w
  = (inl e, log (Ev_create_prediction (model_name job) (build_input (prompt job) kwargs)) w).
Proof.
  intros Hp Hc He. unfold start_generation, try_except. unfold bind at 1.
  rewrite (call_generate_image_run env job w kwargs Hp), Hc. by rewrite He.
Qed.

(** X25.  The service built with the token of the demonstration.  With no
    token, or with "mock_token_for_demo" (the default of the settings), the
    service holds the mock client, whose methods are [async def];
    [generate_image] calls [create_prediction] without awaiting it and
    subscripts the coroutine it gets, which raises [TypeError].  So every run
    that has to submit a job, and whose parameters reach the client, raises
    that error to the queue and leaves the job Failed with "Unexpected error:
    'coroutine' object is not subscriptable", without an external id, without
    a status check and without touching the disk. *)
Theorem mock_client_fails_every_submission replicate_api_token env r i w j kwargs :
  ReplicateService.use_real_api replicate_api_token = false ->
  job_at w i = Some j ->
  truthy (external_job_id j) = false ->
  params_ok (parse_parameters env j) kwargs ->
  let run := process_media_generation (service_env replicate_api_token env) r i w in
  run.1 = inl not_subscriptable
  /\ row_has i (recorded_unexpected not_subscriptable j) run.2
  /\ calls run.2
     = Ev_create_prediction (model_name j) (build_input (prompt j) kwargs) :: calls w
  /\ files run.2 = files w.
Proof.
  intros Hmock Hj Hh Hp. cbv zeta.
  set (env' := service_env replicate_api_token env).
  rewrite (task_run env' r i w j Hj).
  destruct (update_job_frame w i (first_update r (now w))) as (Hf1 & _ & _ & Hc1).
  pose proof (job_at_update w i (first_update r (now w)) j Hj) as Hj1.
  pose proof (first_update_same_request r (now w) (now w) j) as Hsame1.
  revert Hj1 Hsame1.
  generalize (set_updated_at (now w) (fold_left setattr (first_update r (now w)) j)).
  intros j1 Hj1 Hsame1. pose proof Hsame1 as (Hq1 & Hq2 & Hq3 & Hq4).
  assert (Hp1 : params_ok (parse_parameters env' j1) kwargs).
  { change (parse_parameters env' j1) with (parse_parameters env j1).
    by rewrite (parse_parameters_same env j j1 Hq1). }
  set (w2 := log (Ev_create_prediction (model_name j1) (build_input (prompt j1) kwargs))
               (update_job i (first_update r (now w)) w).2).
  destruct (on_exception_recorded i not_subscriptable w2 j1 Hj1) as [E (j3 & Hj3 & Hrec)].
  assert (Hrun : match generate_and_poll env' i j1 (update_job i (first_update r (now w)) w).2
                 with
                 | (inr res, w3) => (inr res, w3)
                 | (inl e, w3) => on_exception i e w3
                 end
                 = (inl not_subscriptable,
                    (update_job i (unexpected_error not_subscriptable (now w2)) w2).2)).
  { unfold generate_and_poll. rewrite Hq4, Hh. simpl negb. cbv iota. unfold bind at 1.
    rewrite (start_generation_passes_on env' i j1 _ kwargs not_subscriptable Hp1);
      [exact E| |done].
    unfold env', service_env. cbn [create_prediction].
    unfold ReplicateService.response_id. by rewrite Hmock. }
  rewrite Hrun. cbn [fst snd].
  destruct (update_job_frame w2 i (unexpected_error not_subscriptable (now w2)))
    as (Hf3 & _ & _ & Hc3).
  split; [done|]. split; [|split].
  - exists j3. split; [exact Hj3|]. by eapply recorded_unexpected_from.
  - rewrite Hc3. unfold w2. cbn [calls log]. by rewrite Hc1, Hq2, Hq3.
  - rewrite Hf3. unfold w2. cbn [files log]. exact Hf1.
Qed.

Lemma mock_client_fails_every_submission_witness :
  let env := sample_env (inr "ext-1") (fun _ => inr pred_succeeded) in
  let run := process_media_generation (service_env "mock_token_for_demo" env) 0 "job-1"
               (world_of pending_job) in
  run.1 = inl not_subscriptable
  /\ row_has "job-1" (recorded_unexpected not_subscriptable pending_job) run.2
  /\ calls run.2
     = Ev_create_prediction (model_name pending_job) (build_input (prompt pending_job) [])
       :: calls (world_of pending_job)
  /\ files run.2 = files (world_of pending_job).
Proof.
  apply (mock_client_fails_every_submission "mock_token_for_demo"
           (sample_env (inr "ext-1") (fun _ => inr pred_succeeded)) 0 "job-1"
           (world_of pending_job) pending_job []).
  - reflexivity.
  - reflexivity.
  - reflexivity.
  - by split.
Defined.
